(** * TrustGuard eBay content script: extraction, risk bands, verdict cache

    A shallow embedding of [content-ebay.js].  The page is a value of type
    [Document]; every method of [EbayListingExtractor] is a function of it.
    Methods that can raise return a [Completion]. *)

From Stdlib Require Import ZArith QArith Lqa String Ascii Lia.
From stdpp Require Import base list strings gmap.

Open Scope string_scope.

(** ** JavaScript strings

    Element text is modelled as a string of 8-bit characters; the whitespace
    and the letter cases are those of ASCII. *)
Module Js.

Definition is_digit (c : ascii) : bool :=
  let n := nat_of_ascii c in (48 <=? n)%nat && (n <=? 57)%nat.

Definition is_comma (c : ascii) : bool := Ascii.eqb c ",".
Definition is_dot (c : ascii) : bool := Ascii.eqb c ".".

(** Tab, line feed, vertical tab, form feed, carriage return, space. *)
Definition is_space (c : ascii) : bool :=
  let n := nat_of_ascii c in ((9 <=? n)%nat && (n <=? 13)%nat) || (n =? 32)%nat.

Definition lower (c : ascii) : ascii :=
  let n := nat_of_ascii c in
  if (65 <=? n)%nat && (n <=? 90)%nat then ascii_of_nat (n + 32) else c.

Fixpoint toLowerCase (s : string) : string :=
  match s with
  | EmptyString => EmptyString
  | String c r => String (lower c) (toLowerCase r)
  end.

Fixpoint trimStart (s : string) : string :=
  match s with
  | EmptyString => EmptyString
  | String c r => if is_space c then trimStart r else s
  end.

Fixpoint trimEnd (s : string) : string :=
  match s with
  | EmptyString => EmptyString
  | String c r =>
      match trimEnd r with
      | EmptyString => if is_space c then EmptyString else String c EmptyString
      | r' => String c r'
      end
  end.

Definition trim (s : string) : string := trimEnd (trimStart s).

Fixpoint startsWith (s p : string) : bool :=
  match p, s with
  | EmptyString, _ => true
  | String a p', String b s' => Ascii.eqb a b && startsWith s' p'
  | String _ _, EmptyString => false
  end.

(** [s.includes(p)]: [p] occurs in [s] at some position. *)
Fixpoint includes (s p : string) : bool :=
  startsWith s p ||
  match s with
  | EmptyString => false
  | String _ r => includes r p
  end.

(** [s.substring(0, n)]. *)
Fixpoint substring0 (n : nat) (s : string) : string :=
  match n, s with
  | S k, String c r => String c (substring0 k r)
  | _, _ => EmptyString
  end.

(** [xs.join(sep)]. *)
Fixpoint join (sep : string) (xs : list string) : string :=
  match xs with
  | [] => EmptyString
  | [x] => x
  | x :: r => x +:+ sep +:+ join sep r
  end.

(** [s.replace(/c/g, '')] for a single character [c]. *)
Fixpoint remove_all (p : ascii -> bool) (s : string) : string :=
  match s with
  | EmptyString => EmptyString
  | String c r => if p c then remove_all p r else String c (remove_all p r)
  end.

(** The longest prefix of characters in the class [p], and what follows. *)
Fixpoint span (p : ascii -> bool) (s : string) : string * string :=
  match s with
  | EmptyString => (EmptyString, EmptyString)
  | String c r =>
      if p c then let '(m, t) := span p r in (String c m, t)
      else (EmptyString, s)
  end.

(** *** Regular expressions

    The patterns of the script are sequences of a literal, a greedy class
    repetition and optional tails.  In each of them every part after the
    first repetition either cannot fail or is last, so the greedy choice is
    never undone and matching needs no backtracking: a matcher consumes a
    prefix and returns it with the remainder. *)
Definition Matcher := string -> option (string * string).

(** [[p]+] *)
Definition re_plus (p : ascii -> bool) : Matcher := fun s =>
  match span p s with
  | (EmptyString, _) => None
  | (m, r) => Some (m, r)
  end.

(** [[p]*] *)
Definition re_star (p : ascii -> bool) : Matcher := fun s => Some (span p s).

(** [c?] *)
Definition re_opt (c : ascii) : Matcher := fun s =>
  match s with
  | String c' r => if Ascii.eqb c' c then Some (String c EmptyString, r)
                   else Some (EmptyString, s)
  | EmptyString => Some (EmptyString, EmptyString)
  end.

Definition re_seq (m1 m2 : Matcher) : Matcher := fun s =>
  match m1 s with
  | Some (a, r) =>
      match m2 r with
      | Some (b, r') => Some (a +:+ b, r')
      | None => None
      end
  | None => None
  end.

Fixpoint skip_lit (p s : string) : option string :=
  match p, s with
  | EmptyString, _ => Some s
  | String a p', String b s' => if Ascii.eqb a b then skip_lit p' s' else None
  | String _ _, EmptyString => None
  end.

(** [lit(group)]: the literal, then the capture group; the text returned is
    the group's, which is [match[1]]. *)
Definition re_group_after (lit : string) (g : Matcher) : Matcher := fun s =>
  match skip_lit lit s with
  | Some r => g r
  | None => None
  end.

(** [s.match(re)] without the [g] flag: the match at the leftmost position
    where the pattern matches, or [null]. *)
Fixpoint re_match (m : Matcher) (s : string) : option string :=
  match m s with
  | Some (a, _) => Some a
  | None =>
      match s with
      | EmptyString => None
      | String _ r => re_match m r
      end
  end.

(** *** Numbers

    A number is [NaN] or a rational: the decimal that [parseFloat] reads is
    kept exactly, where JavaScript rounds it to the nearest double. *)
Inductive Number := NaN | Num (q : Q).

Definition digit_val (c : ascii) : Z := Z.of_nat (nat_of_ascii c) - 48.

Fixpoint digits_val (acc : Z) (s : string) : Z :=
  match s with
  | EmptyString => acc
  | String c r => digits_val (10 * acc + digit_val c) r
  end.

(** The value of the decimal [ip.fp]. *)
Definition decimal (ip fp : string) : Q :=
  Qred (digits_val 0 (ip +:+ fp) # Z.to_pos (10 ^ Z.of_nat (String.length fp))).

(** [parseFloat(s)] for [s] without sign or exponent, which is all the
    extractors pass (digits and points, see [price_argument] and
    [amount_argument]): leading whitespace is skipped, then the longest
    prefix [digits], [digits.], [digits.digits] or [.digits] is read; with
    no digit there the result is [NaN]. *)
Definition parseFloat (s : string) : Number :=
  let '(ip, r) := span is_digit (trimStart s) in
  let fp := match r with
            | String "." r' => fst (span is_digit r')
            | _ => EmptyString
            end in
  match ip, fp with
  | EmptyString, EmptyString => NaN
  | _, _ => Num (decimal ip fp)
  end.

(** [parseInt(s)] for [s] without sign or radix prefix (digits only, see
    [count_argument]): the leading digits in base ten, [NaN] when there is
    none. *)
Definition parseInt (s : string) : Number :=
  match fst (span is_digit (trimStart s)) with
  | EmptyString => NaN
  | ds => Num (inject_Z (digits_val 0 ds))
  end.

(** *** Completions: a value, or a raised exception. *)
Inductive Error := SecurityError | TypeError.

Inductive Completion (A : Type) :=
  | Normal (a : A)
  | Throw (e : Error).
Arguments Normal {A} a.
Arguments Throw {A} e.

Definition bind {A B} (c : Completion A) (k : A -> Completion B) : Completion B :=
  match c with
  | Normal a => k a
  | Throw e => Throw e
  end.

End Js.

Export Js.

(** ** 1. Configuration and constants *)

Inductive ConfigValue := CStr (s : string) | CNum (n : Z).

(** The object literal [TRUSTGUARD_CONFIG], key by key. *)
Definition TRUSTGUARD_CONFIG : list (string * ConfigValue) :=
  [ ("API_URL", CStr "https://api.trustguard.com/v1");
    ("CACHE_DURATION", CNum 300000);
    ("DEBOUNCE_DELAY", CNum 500);
    ("MAX_RETRIES", CNum 3);
    ("OVERLAY_Z_INDEX", CNum 999999) ].

(** Property read [obj.key]: [None] is [undefined]. *)
Fixpoint get_property (obj : list (string * ConfigValue)) (key : string)
  : option ConfigValue :=
  match obj with
  | [] => None
  | (k, v) :: r => if String.eqb k key then Some v else get_property r key
  end.

Definition CACHE_DURATION : Z := 300000.

Inductive Level := CRITICAL | HIGH | MEDIUM | LOW | SAFE.

Record RiskLevel := {
  color : string;
  label : string;
  score : Q;
}.

(** The table [RISK_LEVELS] (the icons, used for display only, are left
    out). *)
Definition RISK_LEVELS (l : Level) : RiskLevel :=
  match l with
  | CRITICAL => {| color := "#DC143C"; label := "High Risk"; score := 80 |}
  | HIGH => {| color := "#FF6B35"; label := "Caution"; score := 60 |}
  | MEDIUM => {| color := "#FFB200"; label := "Medium Risk"; score := 40 |}
  | LOW => {| color := "#059669"; label := "Low Risk"; score := 20 |}
  | SAFE => {| color := "#10B981"; label := "Verified Safe"; score := 0 |}
  end.

(** ** The page

    The script reads the page through [document.querySelector],
    [document.querySelectorAll], [window.location.href] and [Date.now()].
    A document state gives the elements that each selector finds, in
    document order. *)

(** What reading [contentWindow.document.body.textContent] of a frame
    meets. *)
Inductive Frame :=
  | CrossOrigin          (* [contentWindow.document] raises SecurityError *)
  | NoBody               (* [contentWindow] or [document.body] is [null] *)
  | Body (text : string).

(** The [href] property of an element: the resolved address, a string, for
    an HTML anchor; for an anchor of SVG content an object that has no
    [match] method. *)
Inductive Href :=
  | HrefString (u : string)
  | HrefObject.

Record Element := {
  textContent : string;
  src : string;
  href : Href;
  contentWindow : Frame;
}.

Record Document := {
  location_href : string;
  querySelectorAll : string -> list Element;
  Date_now : Z;
}.

(** [querySelector] returns the first element of [querySelectorAll], or
    [null]. *)
Definition querySelector (d : Document) (sel : string) : option Element :=
  head (querySelectorAll d sel).

(** [a || b] on element-or-null operands. *)
Definition or_else {A} (a b : option A) : option A :=
  match a with
  | Some _ => a
  | None => b
  end.

Definition dquote : string := String "034" EmptyString.

(** The selector of the seller link: a[href*=<q>/usr/<q>], where <q> is the
    double quote. *)
Definition seller_link_selector : string :=
  Eval cbv in "a[href*=" +:+ dquote +:+ "/usr/" +:+ dquote +:+ "]".

(** ** 2. Listing data extractor *)

Record ListingData := {
  url : string;
  itemId : option string;
  title : string;
  price : option Number;
  sellerId : option string;
  sellerName : string;
  sellerFeedback : option Number;
  imageUrls : list string;
  description : string;
  condition : string;
  shipping : option Number;
  category : string;
  timestamp : Z;
}.

Module EbayListingExtractor.

Definition is_digit_or_comma (c : ascii) : bool := is_digit c || is_comma c.
Definition is_digit_or_dot (c : ascii) : bool := is_digit c || is_dot c.
Definition not_question (c : ascii) : bool := negb (Ascii.eqb c "?").

(** [/\/itm\/(\d+)/] *)
Definition re_item : Matcher := re_group_after "/itm/" (re_plus is_digit).
(** [/[\d,]+\.?\d*/] *)
Definition re_price : Matcher :=
  re_seq (re_plus is_digit_or_comma) (re_seq (re_opt ".") (re_star is_digit)).
(** [/\/usr\/([^?]+)/] *)
Definition re_usr : Matcher := re_group_after "/usr/" (re_plus not_question).
(** [/[\d,]+/] *)
Definition re_count : Matcher := re_plus is_digit_or_comma.
(** [/[\d.]+/] *)
Definition re_amount : Matcher := re_plus is_digit_or_dot.

Definition extractItemId (d : Document) : option string :=
  re_match re_item (location_href d).

Definition extractTitle (d : Document) : string :=
  match or_else (querySelector d "h1.x-item-title__mainTitle")
                (querySelector d ".it-ttl") with
  | Some titleEl => trim (textContent titleEl)
  | None => ""
  end.

Definition extractPrice (d : Document) : option Number :=
  match or_else (querySelector d ".x-price-primary span.ux-textspans")
                (querySelector d "#prcIsum") with
  | None => None
  | Some priceEl =>
      let priceText := trim (textContent priceEl) in
      match re_match re_price priceText with
      | Some m => Some (parseFloat (remove_all is_comma m))
      | None => None
      end
  end.

(** [sellerLink.href.match] raises TypeError when [href] is not a string. *)
Definition extractSellerId (d : Document) : Completion (option string) :=
  match querySelector d seller_link_selector with
  | None => Normal None
  | Some sellerLink =>
      match href sellerLink with
      | HrefString u => Normal (re_match re_usr u)
      | HrefObject => Throw TypeError
      end
  end.

Definition extractSellerName (d : Document) : string :=
  match or_else (querySelector d ".x-sellercard-atf__info__about-seller a")
                (querySelector d "#mbgLink") with
  | Some sellerEl => trim (textContent sellerEl)
  | None => ""
  end.

Definition extractSellerFeedback (d : Document) : option Number :=
  match or_else (querySelector d ".x-sellercard-atf__data--score")
                (querySelector d "#si-fb") with
  | None => None
  | Some feedbackEl =>
      let text := trim (textContent feedbackEl) in
      match re_match re_count text with
      | Some m => Some (parseInt (remove_all is_comma m))
      | None => None
      end
  end.

(** The [forEach] pushes onto [images]; [slice(0, 5)] keeps the first
    five. *)
Definition extractImages (d : Document) : list string :=
  let imgElements := querySelectorAll d ".ux-image-carousel-item img" in
  let images :=
    foldl (fun images img =>
             if negb (String.eqb (src img) "") &&
                negb (includes (src img) "placeholder")
             then (images ++ [src img])%list
             else images)
          [] imgElements in
  take 5 images.

Definition extractDescription (d : Document) : Completion string :=
  match querySelector d ".x-item-description iframe" with
  | Some descEl =>
      match contentWindow descEl with
      | CrossOrigin => Throw SecurityError
      | NoBody => Throw TypeError
      | Body text => Normal (substring0 1000 text)
      end
  | None => Normal ""
  end.

Definition extractCondition (d : Document) : string :=
  match or_else (querySelector d ".x-item-condition-value__value")
                (querySelector d "#vi-itm-cond") with
  | Some condEl => trim (textContent condEl)
  | None => "Unknown"
  end.

Definition extractShipping (d : Document) : option Number :=
  match querySelector d ".ux-labels-values--shipping .ux-textspans--BOLD" with
  | None => None
  | Some shippingEl =>
      let text := trim (textContent shippingEl) in
      if includes (toLowerCase text) "free" then Some (Num 0)
      else
        match re_match re_amount text with
        | Some m => Some (parseFloat m)
        | None => None
        end
  end.

Definition extractCategory (d : Document) : string :=
  let breadcrumbs := querySelectorAll d ".breadcrumb a" in
  if (List.length breadcrumbs =? 0)%nat then "Unknown"
  else join " > " (map (fun a => trim (textContent a)) breadcrumbs).

(** The properties of the literal are evaluated in order, the seller id
    before the description; the first call that raises ends the
    evaluation. *)
Definition extractListingData (d : Document) : Completion ListingData :=
  bind (extractSellerId d) (fun sellerId_ =>
  bind (extractDescription d) (fun description_ =>
  Normal {|
    url := location_href d;
    itemId := extractItemId d;
    title := extractTitle d;
    price := extractPrice d;
    sellerId := sellerId_;
    sellerName := extractSellerName d;
    sellerFeedback := extractSellerFeedback d;
    imageUrls := extractImages d;
    description := description_;
    condition := extractCondition d;
    shipping := extractShipping d;
    category := extractCategory d;
    timestamp := Date_now d;
  |})).

End EbayListingExtractor.

(** ** 3. API client: the verdict cache

    [TrustGuardAPI.analyzeList] builds the cache key and reads the cache. *)
Module TrustGuardAPI.

(** [`listing_${listingData.itemId}`] *)
Definition cacheKey (listingData : ListingData) : string :=
  "listing_" +:+ match itemId listingData with
                 | Some i => i
                 | None => "null"
                 end.

End TrustGuardAPI.

(** ** Risk classifier *)

Definition severity (l : Level) : nat :=
  match l with
  | SAFE => 0
  | LOW => 1
  | MEDIUM => 2
  | HIGH => 3
  | CRITICAL => 4
  end.

Definition clamp (s : Q) : Q :=
  if Qle_bool s 0 then 0 else if Qle_bool 100 s then 100 else s.

(** Modelled from the spec: the function from a score to its level is
    missing from the source, which holds only the table [RISK_LEVELS].
    Section 4.2: the input is clamped to [0,100], then the band is the
    highest one whose threshold, an inclusive lower bound, the score
    reaches. *)
Definition classify (s : Q) : Level :=
  let s := clamp s in
  if Qle_bool (score (RISK_LEVELS CRITICAL)) s then CRITICAL
  else if Qle_bool (score (RISK_LEVELS HIGH)) s then HIGH
  else if Qle_bool (score (RISK_LEVELS MEDIUM)) s then MEDIUM
  else if Qle_bool (score (RISK_LEVELS LOW)) s then LOW
  else SAFE.

(** ** Freshness cache and request coordinator *)

Inductive Source := cached | fresh.

Record Verdict := {
  subject : string;
  verdict_score : Q;
  level : Level;
  verdict_timestamp : Z;
  source : Source;
}.

Record CacheEntry := {
  entry_verdict : Verdict;
  insertion_timestamp : Z;
}.

Inductive Failure := NetworkExhausted | RejectedRequest.

(** The coordinator owns the cache; [client_calls] logs the keys for which
    the scoring client was invoked, oldest first. *)
Record Coordinator := {
  cache : gmap string CacheEntry;
  client_calls : list string;
}.

Module FreshnessCache.

(** Modelled from the spec: [analyzeList] breaks off inside the freshness
    test, after [Date.now() - cached.timestamp]; the comparison and what
    follows are missing.  Section 4.4: an entry is absent once
    [now - insertionTimestamp > ttl]; expiry is evaluated on read. *)
Definition get (ttl now : Z) (key : string) (c : gmap string CacheEntry)
  : option Verdict :=
  match c !! key with
  | Some e =>
      if (now - insertion_timestamp e >? ttl)%Z then None
      else Some (entry_verdict e)
  | None => None
  end.

(** Modelled from the spec: the cache write of [analyzeList] is missing.
    Section 4.4: [put] replaces any entry of the key. *)
Definition put (now : Z) (key : string) (v : Verdict) (c : gmap string CacheEntry)
  : gmap string CacheEntry :=
  <[key := {| entry_verdict := v; insertion_timestamp := now |}]> c.

End FreshnessCache.

Definition with_source (src : Source) (v : Verdict) : Verdict :=
  {| subject := subject v; verdict_score := verdict_score v; level := level v;
     verdict_timestamp := verdict_timestamp v; source := src |}.

(** Modelled from the spec: the body of [analyzeList] after the cache read
    is missing.  Section 4.5, for one caller at a time: a fresh entry is
    returned as it is, marked cached, with no call of the client; otherwise
    the client is invoked, and a successful verdict is cached and returned,
    marked fresh; a failure is returned and not cached. *)
Definition resolve (client : ListingData -> Failure + Q) (ttl now : Z)
    (listingData : ListingData) (st : Coordinator)
  : (Failure + Verdict) * Coordinator :=
  let key := TrustGuardAPI.cacheKey listingData in
  match FreshnessCache.get ttl now key (cache st) with
  | Some v => (inr (with_source cached v), st)
  | None =>
      let calls := (client_calls st ++ [key])%list in
      match client listingData with
      | inr sc =>
          let v := {| subject := key; verdict_score := sc; level := classify sc;
                      verdict_timestamp := now; source := fresh |} in
          (inr v, {| cache := FreshnessCache.put now key v (cache st);
                     client_calls := calls |})
      | inl f => (inl f, {| cache := cache st; client_calls := calls |})
      end
  end.

(** ** Document states *)

Definition element (text : string) : Element :=
  {| textContent := text; src := ""; href := HrefString "";
     contentWindow := NoBody |}.

Definition image (u : string) : Element :=
  {| textContent := ""; src := u; href := HrefString "";
     contentWindow := NoBody |}.

Definition link (text u : string) : Element :=
  {| textContent := text; src := ""; href := HrefString u;
     contentWindow := NoBody |}.

Definition iframe (f : Frame) : Element :=
  {| textContent := ""; src := ""; href := HrefString "";
     contentWindow := f |}.

Fixpoint find_selector (tbl : list (string * list Element)) (sel : string)
  : list Element :=
  match tbl with
  | [] => []
  | (k, els) :: r => if String.eqb k sel then els else find_selector r sel
  end.

(** The page at address [u] whose selectors find the elements of [tbl],
    read at time [t]. *)
Definition page (u : string) (tbl : list (string * list Element)) (t : Z)
  : Document :=
  {| location_href := u; querySelectorAll := find_selector tbl; Date_now := t |}.

(** The document [d] with the results of the selectors [sels] replaced by
    those of [r]. *)
Definition replace_sources (sels : list string) (r : string -> list Element)
    (d : Document) : Document :=
  {| location_href := location_href d;
     querySelectorAll := fun sel =>
       if existsb (String.eqb sel) sels then r sel else querySelectorAll d sel;
     Date_now := Date_now d |}.

(** The document [d] with no element for the selectors [sels]. *)
Definition without (sels : list string) (d : Document) : Document :=
  replace_sources sels (fun _ => []) d.

(** ** Vocabulary of the statements *)

(** The fields of the snapshot that are read from page elements. *)
Inductive Field :=
  | F_title | F_price | F_sellerId | F_sellerName | F_sellerFeedback
  | F_imageUrls | F_description | F_condition | F_shipping | F_category.

Definition selectors (f : Field) : list string :=
  match f with
  | F_title => ["h1.x-item-title__mainTitle"; ".it-ttl"]
  | F_price => [".x-price-primary span.ux-textspans"; "#prcIsum"]
  | F_sellerId => [seller_link_selector]
  | F_sellerName => [".x-sellercard-atf__info__about-seller a"; "#mbgLink"]
  | F_sellerFeedback => [".x-sellercard-atf__data--score"; "#si-fb"]
  | F_imageUrls => [".ux-image-carousel-item img"]
  | F_description => [".x-item-description iframe"]
  | F_condition => [".x-item-condition-value__value"; "#vi-itm-cond"]
  | F_shipping => [".ux-labels-values--shipping .ux-textspans--BOLD"]
  | F_category => [".breadcrumb a"]
  end.

(** A value of any field, to compare fields of different types. *)
Inductive FieldValue :=
  | VNull
  | VString (s : string)
  | VNumber (n : Number)
  | VList (l : list string).

Definition of_string (o : option string) : FieldValue :=
  match o with Some s => VString s | None => VNull end.
Definition of_number (o : option Number) : FieldValue :=
  match o with Some n => VNumber n | None => VNull end.

Definition field_value (f : Field) (s : ListingData) : FieldValue :=
  match f with
  | F_title => VString (title s)
  | F_price => of_number (price s)
  | F_sellerId => of_string (sellerId s)
  | F_sellerName => VString (sellerName s)
  | F_sellerFeedback => of_number (sellerFeedback s)
  | F_imageUrls => VList (imageUrls s)
  | F_description => VString (description s)
  | F_condition => VString (condition s)
  | F_shipping => of_number (shipping s)
  | F_category => VString (category s)
  end.

(** What each extractor returns when its selectors find nothing. *)
Definition missing_value (f : Field) : FieldValue :=
  match f with
  | F_price | F_sellerId | F_sellerFeedback | F_shipping => VNull
  | F_title | F_sellerName | F_description => VString ""
  | F_condition | F_category => VString "Unknown"
  | F_imageUrls => VList []
  end.

(** The object literal of [extractListingData], given what the calls of
    [extractSellerId] and [extractDescription] returned. *)
Definition snapshot_with (d : Document) (sellerId_ : option string)
    (description_ : string) : ListingData :=
  {| url := location_href d;
     itemId := EbayListingExtractor.extractItemId d;
     title := EbayListingExtractor.extractTitle d;
     price := EbayListingExtractor.extractPrice d;
     sellerId := sellerId_;
     sellerName := EbayListingExtractor.extractSellerName d;
     sellerFeedback := EbayListingExtractor.extractSellerFeedback d;
     imageUrls := EbayListingExtractor.extractImages d;
     description := description_;
     condition := EbayListingExtractor.extractCondition d;
     shipping := EbayListingExtractor.extractShipping d;
     category := EbayListingExtractor.extractCategory d;
     timestamp := Date_now d |}.

(** The snapshot [s] with the field [f] as if its source were missing; two
    snapshots agree on every field but [f] iff they are equal once [f] is
    cleared. *)
Definition clear_field (f : Field) (s : ListingData) : ListingData :=
  {| url := url s;
     itemId := itemId s;
     title := if f is F_title then "" else title s;
     price := if f is F_price then None else price s;
     sellerId := if f is F_sellerId then None else sellerId s;
     sellerName := if f is F_sellerName then "" else sellerName s;
     sellerFeedback := if f is F_sellerFeedback then None else sellerFeedback s;
     imageUrls := if f is F_imageUrls then [] else imageUrls s;
     description := if f is F_description then "" else description s;
     condition := if f is F_condition then "Unknown" else condition s;
     shipping := if f is F_shipping then None else shipping s;
     category := if f is F_category then "Unknown" else category s;
     timestamp := timestamp s |}.

(** Every character of [s] is in the class [p]. *)
Fixpoint all_chars (p : ascii -> bool) (s : string) : bool :=
  match s with
  | EmptyString => true
  | String c r => p c && all_chars p r
  end.

(** No character of [s] is in the class [p]. *)
Definition no_char (p : ascii -> bool) (s : string) : bool :=
  all_chars (fun c => negb (p c)) s.

(** The first character of [s], if any, is not in the class [p]. *)
Definition not_starting (p : ascii -> bool) (s : string) : bool :=
  match s with
  | EmptyString => true
  | String c _ => negb (p c)
  end.

(** An image element that the extractor keeps: it has a source address,
    and the address does not contain [placeholder]. *)
Definition kept (img : Element) : bool :=
  negb (String.eqb (src img) "") && negb (includes (src img) "placeholder").

(** ** Example pages and states *)

(** A carousel whose second image is a placeholder. *)
Definition carousel_page : Document :=
  page "https://www.ebay.com/itm/123456789012"
    [ (".ux-image-carousel-item img",
       [ image "https://i.ebayimg.com/a.jpg";
         image "https://i.ebayimg.com/placeholder.png";
         image "https://i.ebayimg.com/b.jpg";
         image "https://i.ebayimg.com/c.jpg";
         image "https://i.ebayimg.com/d.jpg";
         image "https://i.ebayimg.com/e.jpg" ]) ]
    1700000000000.

(** The reference defaults that the specification gives by value. *)
Definition reference_defaults : list (string * Z) :=
  [ ("requestTimeoutMs", 250%Z); ("maxRetries", 3%Z); ("cacheTtlMs", 300000%Z);
    ("debounceMs", 500%Z); ("maxImages", 5%Z) ].

(** The configuration defines every recognized option with its reference
    default: under some naming [key_of] of the options by keys of
    [TRUSTGUARD_CONFIG], each option that has a reference value holds it, and
    the backoff base holds some number. *)
Definition config_has_reference_defaults : Prop :=
  exists key_of : string -> string,
    (forall o v, (o, v) ∈ reference_defaults ->
       get_property TRUSTGUARD_CONFIG (key_of o) = Some (CNum v)) /\
    exists b, get_property TRUSTGUARD_CONFIG (key_of "backoffBaseMs") = Some (CNum b).

(** A coordinator that holds one verdict, stored at time 1000, and a
    scoring client that is down. *)
Definition listing_42 : ListingData :=
  {| url := "https://www.ebay.com/itm/42"; itemId := Some "42";
     title := "Camera"; price := Some (Num 100); sellerId := None;
     sellerName := ""; sellerFeedback := None; imageUrls := [];
     description := ""; condition := "Unknown"; shipping := None;
     category := "Unknown"; timestamp := 1000 |}.

Definition verdict_42 : Verdict :=
  {| subject := "listing_42"; verdict_score := 85; level := CRITICAL;
     verdict_timestamp := 1000; source := fresh |}.

Definition entry_42 : CacheEntry :=
  {| entry_verdict := verdict_42; insertion_timestamp := 1000 |}.

Definition coordinator_42 : Coordinator :=
  {| cache := {[ "listing_42" := entry_42 ]}; client_calls := [] |}.

Definition scoring_down (_ : ListingData) : Failure + Q := inl NetworkExhausted.

(** A listing page whose shipping element shows [text]. *)
Definition shipping_page (text : string) : Document :=
  page "https://www.ebay.com/itm/123456789012"
    [ (".ux-labels-values--shipping .ux-textspans--BOLD", [element text]) ]
    1700000000000.

(** A listing page with every source element; the description frame holds
    [f]. *)
Definition listing_page (f : Frame) : Document :=
  page "https://www.ebay.com/itm/123456789012?hash=item1"
    [ ("h1.x-item-title__mainTitle", [element "  Vintage Camera  "]);
      (".x-price-primary span.ux-textspans", [element "US $1,234.56"]);
      (seller_link_selector,
       [link "camerashop" "https://www.ebay.com/usr/camerashop?_trksid=p1"]);
      (".x-sellercard-atf__info__about-seller a",
       [link "camerashop" "https://www.ebay.com/usr/camerashop?_trksid=p1"]);
      (".x-sellercard-atf__data--score", [element "(1,234)"]);
      (".ux-image-carousel-item img",
       [ image "https://i.ebayimg.com/a.jpg";
         image "https://i.ebayimg.com/b.jpg" ]);
      (".x-item-description iframe", [iframe f]);
      (".x-item-condition-value__value", [element "Used"]);
      (".ux-labels-values--shipping .ux-textspans--BOLD", [element "US $4.99"]);
      (".breadcrumb a", [element "Cameras"; element "Film Cameras"]) ]
    1700000000000.

(** The snapshot of [listing_page] with the description [A camera.]. *)
Definition camera_snapshot : ListingData :=
  {| url := "https://www.ebay.com/itm/123456789012?hash=item1";
     itemId := Some "123456789012";
     title := "Vintage Camera";
     price := Some (Num (Qred (123456 # 100)));
     sellerId := Some "camerashop";
     sellerName := "camerashop";
     sellerFeedback := Some (Num 1234);
     imageUrls := ["https://i.ebayimg.com/a.jpg"; "https://i.ebayimg.com/b.jpg"];
     description := "A camera.";
     condition := "Used";
     shipping := Some (Num (Qred (499 # 100)));
     category := "Cameras > Film Cameras";
     timestamp := 1700000000000 |}.

(** A seller link inside SVG content, whose [href] is not a string. *)
Definition svg_link : Element :=
  {| textContent := "camerashop"; src := ""; href := HrefObject;
     contentWindow := NoBody |}.

(** A page without description frame whose seller link is [svg_link]. *)
Definition svg_link_page : Document :=
  page "https://www.ebay.com/itm/123456789012"
    [ (seller_link_selector, [svg_link]) ]
    1700000000000.

(** A listing page whose price element shows [text]. *)
Definition price_page (text : string) : Document :=
  page "https://www.ebay.com/itm/123456789012"
    [ (".x-price-primary span.ux-textspans", [element text]) ]
    1700000000000.

(** A page with no element at all. *)
Definition empty_page : Document :=
  page "https://www.ebay.com/itm/123456789012" [] 1700000000000.


(** * Properties *)

Open Scope list_scope.

(** ** Risk classifier *)

Section Classifier.

Local Open Scope Q_scope.

Lemma Qle_bool_false (x y : Q) : Qle_bool x y = false <-> y < x.
Proof.
  split; intros H.
  - apply Qnot_le_lt. intros Hle. apply Qle_bool_iff in Hle. congruence.
  - destruct (Qle_bool x y) eqn:E; [|done].
    apply Qle_bool_iff in E. apply Qlt_not_le in H. contradiction.
Qed.

Lemma clamp_id (s : Q) : 0 <= s -> s <= 100 -> clamp s == s.
Proof.
  intros H0 H1. unfold clamp.
  destruct (Qle_bool s 0) eqn:E0.
  - apply Qle_bool_iff in E0. lra.
  - destruct (Qle_bool 100 s) eqn:E1; [|reflexivity].
    apply Qle_bool_iff in E1. lra.
Qed.

Ltac band :=
  repeat match goal with
  | H : Qle_bool _ _ = true |- _ => apply Qle_bool_iff in H; simpl in H
  | H : Qle_bool _ _ = false |- _ => apply Qle_bool_false in H; simpl in H
  end.

(** The band of a score in range, read off the thresholds. *)
Lemma classify_cases (s : Q) :
  0 <= s -> s <= 100 ->
  (80 <= s /\ classify s = CRITICAL) \/
  (60 <= s < 80 /\ classify s = HIGH) \/
  (40 <= s < 60 /\ classify s = MEDIUM) \/
  (20 <= s < 40 /\ classify s = LOW) \/
  (0 <= s < 20 /\ classify s = SAFE).
Proof.
  intros H0 H1. pose proof (clamp_id s H0 H1) as Hc. unfold classify.
  destruct (Qle_bool (score (RISK_LEVELS CRITICAL)) (clamp s)) eqn:E4;
    [band; left; split; [lra|done]|].
  destruct (Qle_bool (score (RISK_LEVELS HIGH)) (clamp s)) eqn:E3;
    [band; right; left; split; [lra|done]|].
  destruct (Qle_bool (score (RISK_LEVELS MEDIUM)) (clamp s)) eqn:E2;
    [band; right; right; left; split; [lra|done]|].
  destruct (Qle_bool (score (RISK_LEVELS LOW)) (clamp s)) eqn:E1;
    [band; do 3 right; left; split; [lra|done]|].
  band. do 4 right. split; [lra|done].
Qed.

(** C1. For every score [s] in [0,100] the classifier gives exactly the
    level of the band that holds [s], the lower bound of each band being
    inclusive: Critical iff [s >= 80], High iff [60 <= s < 80], Medium iff
    [40 <= s < 60], Low iff [20 <= s < 40], Safe iff [0 <= s < 20]; the
    boundary values 0, 20, 40, 60, 80, 100 map to Safe, Low, Medium, High,
    Critical, Critical; and a higher score in range never has a lower
    severity. *)
Theorem classify_bands (s t : Q) :
  0 <= s -> s <= t -> t <= 100 ->
  (classify s = CRITICAL <-> 80 <= s) /\
  (classify s = HIGH <-> 60 <= s < 80) /\
  (classify s = MEDIUM <-> 40 <= s < 60) /\
  (classify s = LOW <-> 20 <= s < 40) /\
  (classify s = SAFE <-> 0 <= s < 20) /\
  (classify 0 = SAFE /\ classify 20 = LOW /\ classify 40 = MEDIUM /\
   classify 60 = HIGH /\ classify 80 = CRITICAL /\ classify 100 = CRITICAL) /\
  (severity (classify s) <= severity (classify t))%nat.
Proof.
  intros H0 Hst H1.
  assert (Hs : s <= 100) by lra. assert (Ht : 0 <= t) by lra.
  pose proof (classify_cases s H0 Hs) as Cs.
  pose proof (classify_cases t Ht H1) as Ct.
  repeat split; try reflexivity;
    try (intros; destruct Cs as [[? E]|[[? E]|[[? E]|[[? E]|[? E]]]]];
         first [ congruence | lra | (rewrite E in *; discriminate) ]);
    try (destruct Cs as [[? E]|[[? E]|[[? E]|[[? E]|[? E]]]]];
         destruct Ct as [[? E']|[[? E']|[[? E']|[[? E']|[? E']]]]];
         rewrite E, E'; simpl; first [ lia | lra ]).
Qed.

(** The classifier at 79.999 and at 80, with 100 above them. *)
Lemma classify_bands_witness :
  classify (79999 # 1000) = HIGH /\ classify 80 = CRITICAL /\
  (severity (classify (79999 # 1000)) <= severity (classify 100))%nat.
Proof.
  assert (A : 0 <= 79999 # 1000) by (unfold Qle; simpl; lia).
  assert (B : 79999 # 1000 <= 100) by (unfold Qle; simpl; lia).
  assert (C : 100 <= 100) by (unfold Qle; simpl; lia).
  destruct (classify_bands (79999 # 1000) 100 A B C) as (_ & H & _ & _ & _ & Hb & Hm).
  split; [apply H; split; [unfold Qle | unfold Qlt]; simpl; lia|].
  split; [apply Hb | exact Hm].
Defined.

End Classifier.

(** ** Image extraction *)

Section Images.

Local Open Scope list_scope.

Import EbayListingExtractor.

Implicit Types (imgs : list Element) (img : Element) (acc : list string).

(** The loop that pushes the kept addresses computes a filter. *)
Lemma foldl_push_kept imgs acc :
  foldl (fun images img => if kept img then images ++ [src img] else images)
        acc imgs
  = acc ++ (src <$> List.filter kept imgs).
Proof.
  revert acc. induction imgs as [|img imgs IH]; intros acc; simpl.
  - by rewrite app_nil_r.
  - rewrite IH. destruct (kept img); simpl; [|done].
    by rewrite <- app_assoc.
Qed.

Lemma extractImages_eq (d : Document) :
  extractImages d =
  take 5 (src <$> List.filter kept (querySelectorAll d ".ux-image-carousel-item img")).
Proof.
  unfold extractImages. fold kept.
  by rewrite foldl_push_kept.
Qed.

Lemma filter_sublist imgs : List.filter kept imgs `sublist_of` imgs.
Proof.
  induction imgs as [|img imgs IH]; simpl; [constructor|].
  destruct (kept img); by constructor.
Qed.

Lemma kept_not_placeholder img : kept img = true -> includes (src img) "placeholder" = false.
Proof.
  unfold kept. intros [_ H]%andb_true_iff. by apply negb_true_iff in H.
Qed.

Lemma extractImages_length (d : Document) : length (extractImages d) <= 5.
Proof. rewrite extractImages_eq, length_take. lia. Qed.

(** C7. For every document state the image list of the snapshot has at most
    five entries, none of them contains the placeholder marker, and the list
    is a subsequence, in document order, of the source addresses of the image
    elements of the carousel. *)
Theorem extractImages_bounded (d : Document) :
  length (extractImages d) <= 5 /\
  Forall (fun u => includes u "placeholder" = false) (extractImages d) /\
  extractImages d `sublist_of`
    (src <$> querySelectorAll d ".ux-image-carousel-item img").
Proof.
  rewrite extractImages_eq.
  set (imgs := querySelectorAll d ".ux-image-carousel-item img").
  split; [rewrite length_take; lia|]. split.
  - apply Forall_take, Forall_fmap, Forall_forall.
    intros img [_ Hk]%list_elem_of_In%filter_In. simpl.
    by apply kept_not_placeholder.
  - etrans; [apply sublist_take|]. apply fmap_sublist, filter_sublist.
Qed.

(** C10. Image extraction filters before it truncates: the list is the
    first five kept addresses of the whole carousel, so a kept image that
    fewer than five kept images precede is in the snapshot at the position
    that their number gives, wherever it stands in the carousel; on
    [carousel_page], whose second image is a placeholder, the sixth image
    enters the snapshot, which filtering the first five images would not
    give. *)
Theorem extractImages_filter_then_slice (d : Document) (i : nat) (img : Element) :
  let imgs := querySelectorAll d ".ux-image-carousel-item img" in
  imgs !! i = Some img ->
  kept img = true ->
  length (List.filter kept (take i imgs)) < 5 ->
  extractImages d = take 5 (src <$> List.filter kept imgs) /\
  extractImages d !! length (List.filter kept (take i imgs)) = Some (src img) /\
  extractImages carousel_page <>
    (src <$> List.filter kept
       (take 5 (querySelectorAll carousel_page ".ux-image-carousel-item img"))).
Proof.
  intros imgs Hi Hk Hlt. split; [apply extractImages_eq|]. split; [|done].
  rewrite extractImages_eq. fold imgs.
  rewrite lookup_take_lt by done.
  rewrite <- (take_drop_middle imgs i img Hi).
  rewrite List.filter_app, fmap_app. simpl. rewrite Hk. simpl.
  rewrite take_app_length'.
  2:{ rewrite length_take. apply lookup_lt_Some in Hi. lia. }
  rewrite lookup_app_r; rewrite length_fmap; [|done].
  by rewrite Nat.sub_diag.
Qed.

(** On [carousel_page] the sixth image, at index 5, is kept and four kept
    images precede it. *)
Lemma extractImages_filter_then_slice_witness :
  extractImages carousel_page !! 4 = Some "https://i.ebayimg.com/e.jpg".
Proof.
  apply (extractImages_filter_then_slice carousel_page 5
           (image "https://i.ebayimg.com/e.jpg"));
    [reflexivity | reflexivity | simpl; lia].
Defined.

End Images.

(** ** Configuration *)

Section Configuration.

Import EbayListingExtractor.

Lemma get_property_elem obj (k : string) (v : ConfigValue) :
  get_property obj k = Some v -> (k, v) ∈ obj.
Proof.
  induction obj as [|[k' v'] obj IH]; cbn [get_property]; [done|].
  destruct (String.eqb k' k) eqn:E.
  - apply String.eqb_eq in E as ->. intros [= ->]. left.
  - intros H. right. by apply IH.
Qed.

Lemma config_numbers (k : string) (n : Z) :
  get_property TRUSTGUARD_CONFIG k = Some (CNum n) ->
  n = 300000%Z \/ n = 500%Z \/ n = 3%Z \/ n = 999999%Z.
Proof.
  intros H%get_property_elem. unfold TRUSTGUARD_CONFIG in H.
  rewrite !elem_of_cons, elem_of_nil in H.
  destruct H as [H|[H|[H|[H|[H|[]]]]]]; inversion H; tauto.
Qed.

(** C8, as stated, fails: whatever keys of [TRUSTGUARD_CONFIG] stand for the
    recognized options, none of them holds the request timeout 250. *)
Lemma config_reference_defaults_fail : ~ config_has_reference_defaults.
Proof.
  intros (key_of & H & _).
  assert (Hin : ("requestTimeoutMs", 250%Z) ∈ reference_defaults)
    by (unfold reference_defaults; set_solver).
  destruct (config_numbers _ _ (H _ _ Hin)) as [?|[?|[?|?]]]; discriminate.
Qed.

(** C8, amended. The configuration constant gives the retry maximum 3
    ([MAX_RETRIES]), the cache lifetime 300000 ms ([CACHE_DURATION]) and the
    debounce delay 500 ms ([DEBOUNCE_DELAY]); its keys are [API_URL],
    [CACHE_DURATION], [DEBOUNCE_DELAY], [MAX_RETRIES] and [OVERLAY_Z_INDEX],
    so it has no request timeout, no backoff base and no image maximum; the
    image maximum 5 is fixed in [extractImages], which returns five
    addresses when the carousel has as many kept images. *)
Theorem config_defaults :
  get_property TRUSTGUARD_CONFIG "MAX_RETRIES" = Some (CNum 3) /\
  get_property TRUSTGUARD_CONFIG "CACHE_DURATION" = Some (CNum CACHE_DURATION) /\
  CACHE_DURATION = (5 * 60 * 1000)%Z /\
  get_property TRUSTGUARD_CONFIG "DEBOUNCE_DELAY" = Some (CNum 500) /\
  TRUSTGUARD_CONFIG.*1 =
    ["API_URL"; "CACHE_DURATION"; "DEBOUNCE_DELAY"; "MAX_RETRIES"; "OVERLAY_Z_INDEX"] /\
  (forall d : Document, length (extractImages d) <= 5) /\
  length (extractImages carousel_page) = 5.
Proof.
  repeat split; try reflexivity.
  intros d. apply extractImages_length.
Qed.

End Configuration.

(** ** Freshness of cached verdicts *)

Section Freshness.

Import TrustGuardAPI.

Variable client : ListingData -> Failure + Q.
Variables ttl now : Z.

Lemma get_fresh key (c : gmap string CacheEntry) e :
  c !! key = Some e ->
  (now - insertion_timestamp e <= ttl)%Z ->
  FreshnessCache.get ttl now key c = Some (entry_verdict e).
Proof.
  intros Hk Hage. unfold FreshnessCache.get. rewrite Hk.
  destruct (Z.gtb_spec (now - insertion_timestamp e) ttl); [lia|done].
Qed.

Lemma get_expired key (c : gmap string CacheEntry) e :
  c !! key = Some e ->
  (now - insertion_timestamp e > ttl)%Z ->
  FreshnessCache.get ttl now key c = None.
Proof.
  intros Hk Hage. unfold FreshnessCache.get. rewrite Hk.
  destruct (Z.gtb_spec (now - insertion_timestamp e) ttl); [done|lia].
Qed.

Lemma resolve_miss listingData st :
  FreshnessCache.get ttl now (cacheKey listingData) (cache st) = None ->
  client_calls (resolve client ttl now listingData st).2
  = client_calls st ++ [cacheKey listingData].
Proof.
  intros Hget. unfold resolve. rewrite Hget. by destruct (client listingData).
Qed.

Lemma resolve_other_keys listingData st k :
  k <> cacheKey listingData ->
  cache (resolve client ttl now listingData st).2 !! k = cache st !! k.
Proof.
  intros Hk. unfold resolve.
  destruct (FreshnessCache.get _ _ _ _); [done|].
  destruct (client listingData); simpl; [done|].
  unfold FreshnessCache.put. by rewrite lookup_insert_ne.
Qed.

End Freshness.

(** C6. For every cache key, a stored verdict whose age, the time of the
    lookup minus its insertion timestamp, is at most the ttl is returned,
    marked cached, with the coordinator unchanged, so with no invocation of
    the scoring client; a stored verdict whose age exceeds the ttl is a miss,
    and the resolve call invokes the client once for that key.  Expiry is
    decided when the entry is read: nothing deletes entries meanwhile, an
    expired entry stays stored until a successful verdict replaces it, and
    the entries of other keys are left as they are. *)
Theorem resolve_freshness (client : ListingData -> Failure + Q) (ttl now : Z)
    (listingData : ListingData) (st : Coordinator) (e : CacheEntry) :
  let key := TrustGuardAPI.cacheKey listingData in
  let age := (now - insertion_timestamp e)%Z in
  let out := resolve client ttl now listingData st in
  cache st !! key = Some e ->
  ((age <= ttl)%Z ->
     out = (inr (with_source cached (entry_verdict e)), st)) /\
  ((age > ttl)%Z ->
     FreshnessCache.get ttl now key (cache st) = None /\
     client_calls out.2 = client_calls st ++ [key] /\
     (forall f, client listingData = inl f ->
        out.1 = inl f /\ cache out.2 !! key = Some e) /\
     (forall sc, client listingData = inr sc ->
        exists v, out.1 = inr v /\ source v = fresh /\
          cache out.2 !! key =
            Some {| entry_verdict := v; insertion_timestamp := now |})) /\
  (forall k, k <> key -> cache out.2 !! k = cache st !! k).
Proof.
  intros key age out Hk. split; [|split].
  - intros Hage. unfold out, resolve. fold key.
    by rewrite (get_fresh ttl now key _ e Hk Hage).
  - intros Hage. pose proof (get_expired ttl now key _ e Hk Hage) as Hget.
    split; [done|]. split; [by apply resolve_miss|].
    unfold out, resolve. fold key. rewrite Hget. split.
    + intros f ->. done.
    + intros sc ->. eexists. simpl. split; [done|]. split; [done|].
      unfold FreshnessCache.put. by rewrite lookup_insert_eq.
  - intros k Hne. by apply resolve_other_keys.
Qed.

(** A verdict stored at time 1000 with the configured lifetime: read at
    301000 its age is the ttl and it is served from the cache; read at
    301001 it has expired and the client is invoked. *)
Lemma resolve_freshness_witness :
  resolve scoring_down CACHE_DURATION 301000 listing_42 coordinator_42
    = (inr (with_source cached verdict_42), coordinator_42) /\
  client_calls
    (resolve scoring_down CACHE_DURATION 301001 listing_42 coordinator_42).2
    = ["listing_42"].
Proof.
  assert (Hk : cache coordinator_42 !! TrustGuardAPI.cacheKey listing_42
               = Some entry_42) by apply lookup_singleton_eq.
  split.
  - apply (resolve_freshness scoring_down CACHE_DURATION 301000
             listing_42 coordinator_42 entry_42 Hk).
    unfold CACHE_DURATION. simpl. lia.
  - apply (resolve_freshness scoring_down CACHE_DURATION 301001
             listing_42 coordinator_42 entry_42 Hk).
    unfold CACHE_DURATION. simpl. lia.
Defined.

(** ** Strings: classes, spans and trimming *)

Section Strings.

Implicit Types (s r a b w pre post : string) (c : ascii) (p q : ascii -> bool).

Lemma append_cons c a b : String c a +:+ b = String c (a +:+ b).
Proof. reflexivity. Qed.

Lemma append_nil_l s : "" +:+ s = s.
Proof. reflexivity. Qed.

Lemma append_nil_r s : s +:+ "" = s.
Proof. induction s as [|c s IH]; [done|]. by rewrite append_cons, IH. Qed.

Lemma append_assoc a b s : (a +:+ b) +:+ s = a +:+ (b +:+ s).
Proof. induction a as [|c a IH]; [done|]. by rewrite !append_cons, IH. Qed.

Lemma all_chars_app p a b :
  all_chars p (a +:+ b) = all_chars p a && all_chars p b.
Proof.
  induction a as [|c a IH]; [done|].
  rewrite append_cons. simpl. rewrite IH. by rewrite andb_assoc.
Qed.

Lemma all_chars_impl p q s :
  (forall c, p c = true -> q c = true) ->
  all_chars p s = true -> all_chars q s = true.
Proof.
  intros Hpq. induction s as [|c s IH]; simpl; [done|].
  intros [Hc Hs]%andb_true_iff. rewrite (Hpq c Hc). by apply IH.
Qed.

Lemma not_starting_impl p q s :
  (forall c, q c = true -> p c = true) ->
  not_starting p s = true -> not_starting q s = true.
Proof.
  intros Hqp. destruct s as [|c s]; simpl; [done|].
  intros Hc%negb_true_iff. apply negb_true_iff.
  destruct (q c) eqn:E; [|done]. rewrite (Hqp c E) in Hc. done.
Qed.

(** A run of the class followed by a text that leaves the class is split
    at the end of the run. *)
Lemma span_run p a b :
  all_chars p a = true -> not_starting p b = true -> span p (a +:+ b) = (a, b).
Proof.
  intros Ha Hb. induction a as [|c a IH].
  - rewrite append_nil_l. destruct b as [|c b]; simpl in *; [done|].
    apply negb_true_iff in Hb. by rewrite Hb.
  - rewrite append_cons. simpl in *.
    apply andb_true_iff in Ha as [Hc Ha]. rewrite Hc, (IH Ha). done.
Qed.

Lemma span_fst_all p s : all_chars p (span p s).1 = true.
Proof.
  induction s as [|c s IH]; simpl; [done|].
  destruct (p c) eqn:E; [|done].
  destruct (span p s) as [m t]. simpl in *. by rewrite E, IH.
Qed.

Lemma span_empty p s : no_char p s = true -> (span p s).1 = "".
Proof.
  destruct s as [|c s]; simpl; [done|].
  intros [Hc _]%andb_true_iff. apply negb_true_iff in Hc. by rewrite Hc.
Qed.

(** *** Trimming *)

Lemma trimStart_app pre s :
  not_starting is_space s = true -> trimStart (pre +:+ s) = trimStart pre +:+ s.
Proof.
  intros Hs. induction pre as [|c pre IH].
  - rewrite !append_nil_l. destruct s as [|c s]; simpl in *; [done|].
    apply negb_true_iff in Hs. by rewrite Hs.
  - rewrite append_cons. simpl. destruct (is_space c); [apply IH|done].
Qed.

Lemma trimStart_class p s : no_char p s = true -> no_char p (trimStart s) = true.
Proof.
  induction s as [|c s IH]; simpl; [done|].
  intros H. destruct (is_space c); [|done].
  apply andb_true_iff in H as [_ H]. by apply IH.
Qed.

Lemma trimEnd_cons c s : is_space c = false -> trimEnd (String c s) = String c (trimEnd s).
Proof. intros Hc. simpl. destruct (trimEnd s); [by rewrite Hc|done]. Qed.

Lemma trimEnd_run w s :
  no_char is_space w = true -> trimEnd (w +:+ s) = w +:+ trimEnd s.
Proof.
  induction w as [|c w IH]; [done|].
  intros [Hc Hw]%andb_true_iff. apply negb_true_iff in Hc.
  rewrite !append_cons, (trimEnd_cons _ _ Hc), (IH Hw). done.
Qed.

Lemma trimEnd_app a s : trimEnd s <> "" -> trimEnd (a +:+ s) = a +:+ trimEnd s.
Proof.
  intros Hs. induction a as [|c a IH]; [done|].
  rewrite !append_cons. simpl. rewrite IH.
  destruct (a +:+ trimEnd s) eqn:E; [|done].
  destruct a; [done|discriminate].
Qed.

Lemma trimEnd_start p s : not_starting p s = true -> not_starting p (trimEnd s) = true.
Proof.
  destruct s as [|c s]; [done|]. simpl.
  destruct (trimEnd s); [destruct (is_space c)|]; done.
Qed.

Lemma trimEnd_class p s : no_char p s = true -> no_char p (trimEnd s) = true.
Proof.
  induction s as [|c s IH]; [done|]. simpl.
  intros [Hc Hs]%andb_true_iff. specialize (IH Hs).
  destruct (trimEnd s) eqn:E.
  - destruct (is_space c); [done|]. unfold no_char. simpl. by rewrite Hc.
  - unfold no_char in *. simpl in *. rewrite Hc. exact IH.
Qed.

(** Trimming leaves a run without whitespace where it is and trims what
    surrounds it. *)
Lemma trim_middle pre w post :
  no_char is_space w = true -> w <> "" ->
  trim (pre +:+ w +:+ post) = trimStart pre +:+ w +:+ trimEnd post.
Proof.
  intros Hw Hne. unfold trim.
  rewrite trimStart_app.
  2:{ destruct w as [|c w]; [done|]. simpl in *.
      by apply andb_true_iff in Hw as [-> _]. }
  rewrite trimEnd_app; rewrite trimEnd_run by done; [done|].
  destruct w; [done|discriminate].
Qed.

(** *** Search and letter case *)

Lemma startsWith_app w s : startsWith (w +:+ s) w = true.
Proof.
  induction w as [|c w IH]; [by destruct s|].
  rewrite append_cons. simpl. by rewrite Ascii.eqb_refl, IH.
Qed.

Lemma includes_here s w : startsWith s w = true -> includes s w = true.
Proof. intros H. destruct s; cbn [includes]; by rewrite H. Qed.

Lemma includes_app pre w post : includes (pre +:+ w +:+ post) w = true.
Proof.
  induction pre as [|c pre IH].
  - rewrite append_nil_l. apply includes_here, startsWith_app.
  - rewrite append_cons. cbn [includes]. rewrite IH. apply orb_true_r.
Qed.

Lemma toLowerCase_app a b :
  toLowerCase (a +:+ b) = toLowerCase a +:+ toLowerCase b.
Proof.
  induction a as [|c a IH]; [done|].
  rewrite append_cons. simpl. by rewrite IH.
Qed.

Lemma lower_space c : is_space (lower c) = is_space c.
Proof. by destruct c as [[] [] [] [] [] [] [] []]. Qed.

Lemma toLowerCase_space w :
  no_char is_space (toLowerCase w) = no_char is_space w.
Proof.
  unfold no_char. induction w as [|c w IH]; [done|].
  simpl. by rewrite lower_space, IH.
Qed.

Lemma toLowerCase_nil w : toLowerCase w = "" -> w = "".
Proof. by destruct w. Qed.

(** *** Matching *)

Lemma re_match_here (m : Matcher) s a r : m s = Some (a, r) -> re_match m s = Some a.
Proof. intros H. destruct s; cbn [re_match]; by rewrite H. Qed.

Section Headed.

(** A pattern that begins with the repetition [[p]+] matches at a position
    exactly when the character there is in the class [p]. *)
Variable (p : ascii -> bool) (m : Matcher).
Hypothesis m_nil : m "" = None.
Hypothesis m_head : forall c r, m (String c r) = None <-> p c = false.

Lemma re_match_skip pre s :
  no_char p pre = true -> re_match m (pre +:+ s) = re_match m s.
Proof.
  unfold no_char. induction pre as [|c pre IH]; [done|].
  cbn [all_chars]. intros [Hc Hpre]%andb_true_iff. apply negb_true_iff in Hc.
  change (String c pre +:+ s) with (String c (pre +:+ s)). cbn [re_match].
  by rewrite (proj2 (m_head c (pre +:+ s)) Hc), IH.
Qed.

Lemma re_match_None s : re_match m s = None <-> no_char p s = true.
Proof.
  unfold no_char. induction s as [|c s IH]; simpl.
  - by rewrite m_nil.
  - destruct (m (String c s)) as [[a r]|] eqn:E.
    + destruct (p c) eqn:Hc; [done|].
      apply (m_head c s) in Hc. congruence.
    + apply m_head in E. rewrite E. simpl. exact IH.
Qed.

End Headed.

Lemma re_plus_nil p : re_plus p "" = None.
Proof. done. Qed.

Lemma re_plus_head p c r : re_plus p (String c r) = None <-> p c = false.
Proof.
  unfold re_plus. simpl. destruct (p c); [|done].
  by destruct (span p r).
Qed.

Lemma re_plus_run p a b :
  all_chars p a = true -> a <> "" -> not_starting p b = true ->
  re_plus p (a +:+ b) = Some (a, b).
Proof.
  intros Ha Hne Hb. unfold re_plus. rewrite span_run by done. by destruct a.
Qed.

(** *** Digits *)

Lemma remove_all_app p a b : remove_all p (a +:+ b) = remove_all p a +:+ remove_all p b.
Proof.
  induction a as [|c a IH]; [done|].
  rewrite append_cons. simpl. destruct (p c); by rewrite IH.
Qed.

Lemma remove_all_id p s : no_char p s = true -> remove_all p s = s.
Proof.
  unfold no_char. induction s as [|c s IH]; [done|]. simpl.
  intros [Hc Hs]%andb_true_iff. apply negb_true_iff in Hc.
  by rewrite Hc, IH.
Qed.

Lemma digit_not_comma c : is_digit c = true -> is_comma c = false.
Proof. by destruct c as [[] [] [] [] [] [] [] []]. Qed.

Lemma digit_not_space c : is_digit c = true -> is_space c = false.
Proof. by destruct c as [[] [] [] [] [] [] [] []]. Qed.

Lemma digit_not_dot c : is_digit c = true -> is_dot c = false.
Proof. by destruct c as [[] [] [] [] [] [] [] []]. Qed.

Lemma comma_not_space c : is_comma c = true -> is_space c = false.
Proof. by destruct c as [[] [] [] [] [] [] [] []]. Qed.

Lemma dot_not_space c : is_dot c = true -> is_space c = false.
Proof. by destruct c as [[] [] [] [] [] [] [] []]. Qed.

End Strings.

(** ** Shipping cost *)

Section Shipping.

Import EbayListingExtractor.

(** C9. The free-shipping test comes before the numeric parse: for every
    shipping element whose text contains [free] in any letter case, the
    extractor returns 0, whatever else the text holds, a numeric amount
    included. *)
Theorem extractShipping_free_first (d : Document) (shippingEl : Element)
    (pre w post : string) :
  querySelector d ".ux-labels-values--shipping .ux-textspans--BOLD"
    = Some shippingEl ->
  textContent shippingEl = pre +:+ w +:+ post ->
  toLowerCase w = "free" ->
  extractShipping d = Some (Num 0).
Proof.
  intros Hel Htext Hw. unfold extractShipping. rewrite Hel, Htext.
  assert (Hns : no_char is_space w = true)
    by (by rewrite <- toLowerCase_space, Hw).
  assert (Hne : w <> "") by (intros ->; discriminate).
  rewrite (trim_middle _ _ _ Hns Hne), !toLowerCase_app, Hw.
  by rewrite includes_app.
Qed.

(** The conditional offer [Free shipping on orders over $50] gives 0, not
    50. *)
Lemma extractShipping_free_first_witness :
  extractShipping (shipping_page "Free shipping on orders over $50")
    = Some (Num 0).
Proof.
  apply (extractShipping_free_first _
           (element "Free shipping on orders over $50")
           "" "Free" " shipping on orders over $50");
    reflexivity.
Defined.

End Shipping.

(** ** Numeric fields *)

Section Numbers.

Import EbayListingExtractor.

Implicit Types (s text pre ip fp post ds : string) (c : ascii).

Lemma trimStart_id s : not_starting is_space s = true -> trimStart s = s.
Proof.
  destruct s as [|c s]; [done|]. simpl.
  intros Hc%negb_true_iff. by rewrite Hc.
Qed.

Lemma no_char_trimStart (p : ascii -> bool) s :
  (forall c, p c = true -> is_space c = false) ->
  no_char p (trimStart s) = no_char p s.
Proof.
  intros Hp. unfold no_char. induction s as [|c s IH]; [done|]. simpl.
  destruct (is_space c) eqn:Hc; [|done].
  rewrite IH. destruct (p c) eqn:E; [|done].
  rewrite (Hp c E) in Hc. done.
Qed.

Lemma no_char_trimEnd (p : ascii -> bool) s :
  (forall c, p c = true -> is_space c = false) ->
  no_char p (trimEnd s) = no_char p s.
Proof.
  intros Hp. unfold no_char. induction s as [|c s IH]; [done|]. simpl.
  destruct (trimEnd s) eqn:E.
  - rewrite <- IH. simpl. destruct (is_space c) eqn:Hc; simpl.
    + destruct (p c) eqn:Hpc; [|done]. rewrite (Hp c Hpc) in Hc. done.
    + by rewrite andb_true_r.
  - simpl in *. by rewrite IH.
Qed.

Lemma no_char_trim (p : ascii -> bool) s :
  (forall c, p c = true -> is_space c = false) ->
  no_char p (trim s) = no_char p s.
Proof.
  intros Hp. unfold trim. by rewrite no_char_trimEnd, no_char_trimStart.
Qed.

Lemma digit_or_comma_not_space c : is_digit_or_comma c = true -> is_space c = false.
Proof.
  intros [H|H]%orb_true_iff; [by apply digit_not_space|by apply comma_not_space].
Qed.

Lemma digit_or_dot_not_space c : is_digit_or_dot c = true -> is_space c = false.
Proof.
  intros [H|H]%orb_true_iff; [by apply digit_not_space|by apply dot_not_space].
Qed.

(** *** The three patterns *)

Lemma re_price_nil : re_price "" = None.
Proof. done. Qed.

Lemma re_price_head c s : re_price (String c s) = None <-> is_digit_or_comma c = false.
Proof.
  rewrite <- (re_plus_head is_digit_or_comma c s).
  unfold re_price, re_seq.
  destruct (re_plus is_digit_or_comma (String c s)) as [[a r]|]; [|done].
  unfold re_opt, re_star. destruct r as [|c' r]; [done|].
  destruct (Ascii.eqb c' "."); by destruct (span is_digit _).
Qed.


(** *** Reading the digits *)

Lemma remove_commas_digits ip :
  all_chars is_digit_or_comma ip = true ->
  all_chars is_digit (remove_all is_comma ip) = true.
Proof.
  induction ip as [|c ip IH]; [done|]. simpl.
  intros [Hc Hip]%andb_true_iff. destruct (is_comma c) eqn:E; [by apply IH|].
  simpl. rewrite (IH Hip), andb_true_r.
  unfold is_digit_or_comma in Hc. rewrite E, orb_false_r in Hc. done.
Qed.

Lemma remove_commas_nonempty ip :
  no_char is_digit ip = false -> remove_all is_comma ip <> "".
Proof.
  unfold no_char. induction ip as [|c ip IH]; [done|]. simpl.
  destruct (is_digit c) eqn:E.
  - rewrite (digit_not_comma c E). done.
  - simpl. intros H. destruct (is_comma c); [by apply IH|done].
Qed.

Lemma digits_no_comma fp : all_chars is_digit fp = true -> no_char is_comma fp = true.
Proof.
  apply all_chars_impl. intros c H. by rewrite (digit_not_comma c H).
Qed.

Lemma digits_start ds s :
  all_chars is_digit ds = true -> ds <> "" ->
  not_starting is_space (ds +:+ s) = true.
Proof.
  destruct ds as [|c ds]; [done|]. simpl.
  intros [Hc _]%andb_true_iff _. by rewrite (digit_not_space c Hc).
Qed.



(** *** Trimming and search *)

Lemma toLowerCase_trimStart s : toLowerCase (trimStart s) = trimStart (toLowerCase s).
Proof.
  induction s as [|c s IH]; [done|]. simpl. rewrite lower_space.
  by destruct (is_space c).
Qed.

Lemma toLowerCase_trimEnd s : toLowerCase (trimEnd s) = trimEnd (toLowerCase s).
Proof.
  induction s as [|c s IH]; [done|]. simpl. rewrite <- IH, lower_space.
  destruct (trimEnd s); [by destruct (is_space c)|done].
Qed.

Lemma toLowerCase_trim s : toLowerCase (trim s) = trim (toLowerCase s).
Proof. unfold trim. by rewrite toLowerCase_trimEnd, toLowerCase_trimStart. Qed.

Lemma includes_nil s : includes s "" = true.
Proof. by destruct s. Qed.

Lemma includes_cons c s w : includes s w = true -> includes (String c s) w = true.
Proof. intros H. cbn [includes]. rewrite H. apply orb_true_r. Qed.

Lemma includes_trimStart s w : includes (trimStart s) w = true -> includes s w = true.
Proof.
  induction s as [|c s IH]; [done|]. simpl trimStart.
  destruct (is_space c); [|done]. intros H. by apply includes_cons, IH.
Qed.

Lemma trimEnd_cases c s :
  trimEnd (String c s) = "" \/ trimEnd (String c s) = String c (trimEnd s).
Proof.
  simpl. destruct (trimEnd s); [destruct (is_space c)|]; auto.
Qed.

Lemma startsWith_trimEnd s w : startsWith (trimEnd s) w = true -> startsWith s w = true.
Proof.
  revert w. induction s as [|c s IH]; intros w; [done|].
  destruct w as [|a w]; [done|].
  destruct (trimEnd_cases c s) as [->| ->]; [done|]. simpl.
  intros [-> H]%andb_true_iff. by rewrite (IH w H).
Qed.

Lemma includes_trimEnd s w : includes (trimEnd s) w = true -> includes s w = true.
Proof.
  induction s as [|c s IH]; [done|].
  destruct w as [|a w]; [intros _; apply includes_nil|].
  destruct (trimEnd_cases c s) as [E|E].
  - rewrite E. done.
  - rewrite E. cbn [includes]. rewrite <- E.
    intros [H|H]%orb_true_iff.
    + by rewrite (startsWith_trimEnd _ _ H).
    + rewrite (IH H). apply orb_true_r.
Qed.

Lemma includes_trim s w : includes (trim s) w = true -> includes s w = true.
Proof. intros H. by apply includes_trimStart, includes_trimEnd. Qed.

Lemma not_includes_trim text w :
  includes (toLowerCase text) w = false ->
  includes (toLowerCase (trim text)) w = false.
Proof.
  intros H. rewrite toLowerCase_trim.
  destruct (includes (trim _) w) eqn:E; [|done].
  apply includes_trim in E. congruence.
Qed.

(** *** What the extractors read from a text *)

Lemma price_text_none text :
  no_char is_digit_or_comma text = true ->
  re_match re_price (trim text) = None.
Proof.
  intros H. apply (re_match_None is_digit_or_comma re_price re_price_nil re_price_head).
  by rewrite no_char_trim by apply digit_or_comma_not_space.
Qed.

Lemma count_text_none text :
  no_char is_digit_or_comma text = true ->
  re_match re_count (trim text) = None.
Proof.
  intros H.
  apply (re_match_None is_digit_or_comma re_count (re_plus_nil _) (re_plus_head _)).
  by rewrite no_char_trim by apply digit_or_comma_not_space.
Qed.

Lemma amount_text_none text :
  no_char is_digit_or_dot text = true ->
  re_match re_amount (trim text) = None.
Proof.
  intros H.
  apply (re_match_None is_digit_or_dot re_amount (re_plus_nil _) (re_plus_head _)).
  by rewrite no_char_trim by apply digit_or_dot_not_space.
Qed.


Lemma count_text_run pre ip post :
  no_char is_digit_or_comma pre = true ->
  all_chars is_digit_or_comma ip = true ->
  ip <> "" ->
  not_starting is_digit_or_comma post = true ->
  re_match re_count (trim (pre +:+ ip +:+ post)) = Some ip.
Proof.
  intros Hpre Hip Hne Hpost.
  assert (Hw : no_char is_space ip = true).
  { revert Hip. apply all_chars_impl. intros c H.
    by rewrite (digit_or_comma_not_space c H). }
  rewrite trim_middle by done.
  rewrite (re_match_skip is_digit_or_comma re_count (re_plus_head _))
    by (by apply trimStart_class).
  eapply re_match_here, re_plus_run; try done.
  by apply trimEnd_start.
Qed.


End Numbers.

(** ** The arguments of [parseFloat] and [parseInt]

    What the extractors hand to [parseFloat] holds digits and points only,
    and what they hand to [parseInt] holds digits only: no sign, exponent or
    radix prefix reaches them. *)

Section Arguments.

Import EbayListingExtractor.

Lemma re_match_inv (m : Matcher) (s a : string) :
  re_match m s = Some a -> exists s' r, m s' = Some (a, r).
Proof.
  induction s as [|c s IH]; cbn [re_match].
  - destruct (m "") as [[a' r]|] eqn:E; [|done]. intros [= <-]. eauto.
  - destruct (m (String c s)) as [[a' r]|] eqn:E; [|exact IH].
    intros [= <-]. eauto.
Qed.

Lemma re_plus_class (p : ascii -> bool) (s a r : string) :
  re_plus p s = Some (a, r) -> all_chars p a = true.
Proof.
  unfold re_plus. pose proof (span_fst_all p s) as H.
  destruct (span p s) as [m t]. simpl in H.
  destruct m; [done|]. by intros [= <- _].
Qed.

Lemma amount_argument (text m : string) :
  re_match re_amount text = Some m -> all_chars is_digit_or_dot m = true.
Proof. intros (s' & r & H)%re_match_inv. by eapply re_plus_class. Qed.

Lemma count_argument (text m : string) :
  re_match re_count text = Some m ->
  all_chars is_digit (remove_all is_comma m) = true.
Proof.
  intros (s' & r & H)%re_match_inv.
  eapply remove_commas_digits, re_plus_class, H.
Qed.

Lemma price_argument (text m : string) :
  re_match re_price text = Some m ->
  all_chars is_digit_or_dot (remove_all is_comma m) = true.
Proof.
  intros (s' & r & H)%re_match_inv. revert H. unfold re_price, re_seq.
  destruct (re_plus is_digit_or_comma s') as [[a t]|] eqn:Ea; [|done].
  assert (Hd : forall c, is_digit c = true -> is_digit_or_dot c = true)
    by (intros c Hc; unfold is_digit_or_dot; by rewrite Hc).
  assert (Ha : all_chars is_digit_or_dot (remove_all is_comma a) = true).
  { eapply all_chars_impl; [exact Hd|].
    eapply remove_commas_digits, re_plus_class, Ea. }
  assert (Hds : forall x,
             all_chars is_digit_or_dot (remove_all is_comma (span is_digit x).1)
             = true).
  { intros x. rewrite remove_all_id by apply digits_no_comma, span_fst_all.
    eapply all_chars_impl; [exact Hd|apply span_fst_all]. }
  unfold re_opt, re_star. destruct t as [|c t].
  - simpl. intros H. inversion H; subst.
    by rewrite !append_nil_r.
  - destruct (Ascii.eqb c ".") eqn:Ec.
    + pose proof (Hds t) as Hb. destruct (span is_digit t) as [b r'].
      simpl in *. intros H. inversion H; subst.
      by rewrite !remove_all_app, !all_chars_app, Ha, Hb.
    + pose proof (Hds (String c t)) as Hb.
      destruct (span is_digit (String c t)) as [b r'].
      simpl in Hb |- *. intros H. inversion H; subst.
      by rewrite !remove_all_app, !all_chars_app, Ha, Hb.
Qed.

End Arguments.

(** ** The numeric extractors on a page *)

Section NumericFields.

Import EbayListingExtractor.

Variable d : Document.

Lemma extractPrice_none (priceEl : Element) :
  or_else (querySelector d ".x-price-primary span.ux-textspans")
          (querySelector d "#prcIsum") = Some priceEl ->
  no_char is_digit_or_comma (textContent priceEl) = true ->
  extractPrice d = None.
Proof.
  intros Hel H. unfold extractPrice. rewrite Hel.
  by rewrite (price_text_none _ H).
Qed.

Lemma extractSellerFeedback_none (feedbackEl : Element) :
  or_else (querySelector d ".x-sellercard-atf__data--score")
          (querySelector d "#si-fb") = Some feedbackEl ->
  no_char is_digit_or_comma (textContent feedbackEl) = true ->
  extractSellerFeedback d = None.
Proof.
  intros Hel H. unfold extractSellerFeedback. rewrite Hel.
  by rewrite (count_text_none _ H).
Qed.

Lemma extractShipping_none (shippingEl : Element) :
  querySelector d ".ux-labels-values--shipping .ux-textspans--BOLD"
    = Some shippingEl ->
  includes (toLowerCase (textContent shippingEl)) "free" = false ->
  no_char is_digit_or_dot (textContent shippingEl) = true ->
  extractShipping d = None.
Proof.
  intros Hel Hfree H. unfold extractShipping. rewrite Hel.
  rewrite (not_includes_trim _ _ Hfree). by rewrite (amount_text_none _ H).
Qed.




End NumericFields.




(** ** Outcomes of the shipping extractor *)

(** C3 at concrete pages. [Free] gives 0, [$4.99] gives 4.99, a page without
    shipping element and the text [Calculated] give null; the text
    [See details.] has no amount, yet the pattern takes its full stop for
    one and the extractor returns [NaN], a fourth outcome that is neither a
    cost nor null. *)
Theorem extractShipping_outcomes :
  EbayListingExtractor.extractShipping (shipping_page "Free") = Some (Num 0) /\
  EbayListingExtractor.extractShipping (shipping_page "$4.99")
    = Some (Num (Qred (499 # 100))) /\
  EbayListingExtractor.extractShipping empty_page = None /\
  EbayListingExtractor.extractShipping (shipping_page "Calculated") = None /\
  EbayListingExtractor.extractShipping (shipping_page "See details.") = Some NaN.
Proof. repeat split; reflexivity. Qed.

(** ** Completion of the extraction *)

(** The extraction returns a snapshot exactly when reading the seller id
    and reading the description both do, and the snapshot is the object
    literal filled with what they return. *)
Lemma extractListingData_Normal (d : Document) (s : ListingData) :
  EbayListingExtractor.extractListingData d = Normal s <->
  exists sellerId_ description_,
    EbayListingExtractor.extractSellerId d = Normal sellerId_ /\
    EbayListingExtractor.extractDescription d = Normal description_ /\
    s = snapshot_with d sellerId_ description_.
Proof.
  unfold EbayListingExtractor.extractListingData.
  destruct (EbayListingExtractor.extractSellerId d) as [sid|e]; simpl.
  - destruct (EbayListingExtractor.extractDescription d) as [text|e]; simpl.
    + split.
      * intros [= <-]. by exists sid, text.
      * by intros (? & ? & [= <-] & [= <-] & ->).
    + split; [done|]. by intros (? & ? & _ & ? & _).
  - split; [done|]. by intros (? & ? & ? & _).
Qed.

(** C4 at concrete pages. With the description frame present and its inner
    document unreadable, or without body, [extractDescription] raises and
    [extractListingData] returns no snapshot; with a readable frame it
    returns one. *)
Theorem extractListingData_raises :
  EbayListingExtractor.extractDescription (listing_page CrossOrigin)
    = Throw SecurityError /\
  EbayListingExtractor.extractListingData (listing_page CrossOrigin)
    = Throw SecurityError /\
  EbayListingExtractor.extractListingData (listing_page NoBody)
    = Throw TypeError /\
  (exists s, EbayListingExtractor.extractListingData
               (listing_page (Body "A camera.")) = Normal s).
Proof. repeat split; try reflexivity. eexists. reflexivity. Qed.

(** ** Fields are extracted independently *)

Import EbayListingExtractor.

Ltac eval_selectors :=
  repeat match goal with
  | |- context [existsb (String.eqb ?a) ?l] =>
      let b := eval vm_compute in (existsb (String.eqb a) l) in
      change (existsb (String.eqb a) l) with b
  end;
  cbv beta iota.

Ltac frame :=
  unfold querySelector, replace_sources, selectors;
  cbn [querySelectorAll location_href Date_now];
  eval_selectors; reflexivity.

Section Independence.

Variables (f : Field) (r : string -> list Element) (d : Document).

Lemma frame_itemId :
  extractItemId (replace_sources (selectors f) r d) = extractItemId d.
Proof. reflexivity. Qed.

Lemma frame_title :
  f <> F_title ->
  extractTitle (replace_sources (selectors f) r d)
  = extractTitle d.
Proof. intros H. unfold extractTitle. destruct f; try done; frame. Qed.

Lemma frame_price :
  f <> F_price ->
  extractPrice (replace_sources (selectors f) r d)
  = extractPrice d.
Proof. intros H. unfold extractPrice. destruct f; try done; frame. Qed.

Lemma frame_sellerId :
  f <> F_sellerId ->
  extractSellerId (replace_sources (selectors f) r d)
  = extractSellerId d.
Proof. intros H. unfold extractSellerId. destruct f; try done; frame. Qed.

Lemma frame_sellerName :
  f <> F_sellerName ->
  extractSellerName (replace_sources (selectors f) r d)
  = extractSellerName d.
Proof. intros H. unfold extractSellerName. destruct f; try done; frame. Qed.

Lemma frame_sellerFeedback :
  f <> F_sellerFeedback ->
  extractSellerFeedback (replace_sources (selectors f) r d)
  = extractSellerFeedback d.
Proof. intros H. unfold extractSellerFeedback. destruct f; try done; frame. Qed.

Lemma frame_images :
  f <> F_imageUrls ->
  extractImages (replace_sources (selectors f) r d)
  = extractImages d.
Proof. intros H. unfold extractImages. destruct f; try done; frame. Qed.

Lemma frame_description :
  f <> F_description ->
  extractDescription (replace_sources (selectors f) r d)
  = extractDescription d.
Proof. intros H. unfold extractDescription. destruct f; try done; frame. Qed.

Lemma frame_condition :
  f <> F_condition ->
  extractCondition (replace_sources (selectors f) r d)
  = extractCondition d.
Proof. intros H. unfold extractCondition. destruct f; try done; frame. Qed.

Lemma frame_shipping :
  f <> F_shipping ->
  extractShipping (replace_sources (selectors f) r d)
  = extractShipping d.
Proof. intros H. unfold extractShipping. destruct f; try done; frame. Qed.

Lemma frame_category :
  f <> F_category ->
  extractCategory (replace_sources (selectors f) r d)
  = extractCategory d.
Proof. intros H. unfold extractCategory. destruct f; try done; frame. Qed.

End Independence.

(** With its selectors finding nothing, each extractor returns the value
    that [clear_field] puts in its field; the other fields are as before. *)
Lemma missing_field (d : Document) (f : Field) (s : ListingData) :
  extractListingData d = Normal s ->
  extractListingData (without (selectors f) d) = Normal (clear_field f s).
Proof.
  intros (sid & text & Hsid & Htext & ->)%extractListingData_Normal.
  apply extractListingData_Normal. unfold without.
  destruct f;
    [ exists sid, text | exists sid, text | exists None, text
    | exists sid, text | exists sid, text | exists sid, text
    | exists sid, "" | exists sid, text | exists sid, text
    | exists sid, text ];
    rewrite ?frame_sellerId, ?frame_description by done;
    (split; [first [exact Hsid | reflexivity]|]);
    (split; [first [exact Htext | reflexivity]|]);
    unfold clear_field, snapshot_with;
    cbn [url itemId title price sellerId sellerName sellerFeedback
         imageUrls description condition shipping category timestamp];
    rewrite ?frame_title, ?frame_price, ?frame_sellerName,
      ?frame_sellerFeedback, ?frame_images,
      ?frame_condition, ?frame_shipping, ?frame_category by done;
    reflexivity.
Qed.

(** Whatever the selectors of a field find, a snapshot that is returned has
    the other fields as before. *)
Lemma other_fields (d : Document) (f : Field) (r : string -> list Element)
    (s s' : ListingData) :
  extractListingData d = Normal s ->
  extractListingData (replace_sources (selectors f) r d) = Normal s' ->
  clear_field f s' = clear_field f s.
Proof.
  intros (sid & text & Hsid & Htext & ->)%extractListingData_Normal.
  intros (sid' & text' & Hsid' & Htext' & ->)%extractListingData_Normal.
  destruct f;
    rewrite ?frame_sellerId, ?frame_description in * by done;
    try (assert (sid' = sid) as -> by congruence);
    try (assert (text' = text) as -> by congruence);
    unfold clear_field, snapshot_with;
    cbn [url itemId title price sellerId sellerName sellerFeedback
         imageUrls description condition shipping category timestamp];
    rewrite ?frame_title, ?frame_price, ?frame_sellerName,
      ?frame_sellerFeedback, ?frame_images,
      ?frame_condition, ?frame_shipping, ?frame_category by done;
    reflexivity.
Qed.

(** The extraction still returns a snapshot when the selectors of a field
    other than the seller id and the description find something else. *)
Lemma still_returns (d : Document) (f : Field) (r : string -> list Element)
    (s : ListingData) :
  f <> F_sellerId -> f <> F_description ->
  extractListingData d = Normal s ->
  exists s', extractListingData (replace_sources (selectors f) r d) = Normal s'.
Proof.
  intros Hid Hdesc (sid & text & Hsid & Htext & ->)%extractListingData_Normal.
  eexists. apply extractListingData_Normal. exists sid, text.
  by rewrite frame_sellerId, frame_description.
Qed.

(** C2, as stated, fails: on the listing page without condition element the
    extraction returns a snapshot whose condition is the text [Unknown], not
    null. *)
Lemma missing_condition_not_null :
  exists s,
    extractListingData
      (without (selectors F_condition) (listing_page (Body "A camera.")))
    = Normal s /\
    field_value F_condition s = VString "Unknown" /\
    field_value F_condition s <> VNull.
Proof. eexists. split; [reflexivity|]. split; [reflexivity|discriminate]. Qed.

(** The numeric fields of a snapshot are what their extractors return. *)
Lemma snapshot_numbers (d : Document) (s : ListingData) :
  extractListingData d = Normal s ->
  price s = extractPrice d /\
  sellerFeedback s = extractSellerFeedback d /\
  shipping s = extractShipping d.
Proof.
  by intros (sid & text & _ & _ & ->)%extractListingData_Normal.
Qed.

(** C2, amended. For every document state whose extraction returns a
    snapshot and every field read from page elements, with the source
    elements of the field missing the extraction returns the same snapshot
    with that field at its missing value: null for price, seller id, seller
    feedback and shipping, the empty text for title, seller name and
    description, [Unknown] for condition and category, the empty list for the
    images.  Whatever the selectors of a field find, unparsable content
    included, a snapshot that the extraction then returns has every other
    field as before, and it returns one for every field but the seller id
    and the description, whose own reads can raise.  A price or feedback
    text without digit and comma, and a shipping text without [free], digit
    and point, give null for that field. *)
Theorem extract_missing_field (d : Document) (f : Field) (s : ListingData) :
  extractListingData d = Normal s ->
  extractListingData (without (selectors f) d) = Normal (clear_field f s) /\
  field_value f (clear_field f s) = missing_value f /\
  (forall g, g <> f -> field_value g (clear_field f s) = field_value g s) /\
  (forall r s',
     extractListingData (replace_sources (selectors f) r d) = Normal s' ->
     clear_field f s' = clear_field f s) /\
  (f <> F_sellerId -> f <> F_description ->
   forall r, exists s',
     extractListingData (replace_sources (selectors f) r d) = Normal s') /\
  (forall el,
     or_else (querySelector d ".x-price-primary span.ux-textspans")
             (querySelector d "#prcIsum") = Some el ->
     no_char is_digit_or_comma (textContent el) = true -> price s = None) /\
  (forall el,
     or_else (querySelector d ".x-sellercard-atf__data--score")
             (querySelector d "#si-fb") = Some el ->
     no_char is_digit_or_comma (textContent el) = true ->
     sellerFeedback s = None) /\
  (forall el,
     querySelector d ".ux-labels-values--shipping .ux-textspans--BOLD"
       = Some el ->
     includes (toLowerCase (textContent el)) "free" = false ->
     no_char is_digit_or_dot (textContent el) = true -> shipping s = None).
Proof.
  intros H. destruct (snapshot_numbers d s H) as (Hp & Hf & Hs).
  split; [by apply missing_field|].
  split; [by destruct f|].
  split; [intros g Hg; by destruct f, g|].
  split; [intros r s'; by apply other_fields|].
  split; [intros Hid Hdesc r; by eapply still_returns|].
  rewrite Hp, Hf, Hs.
  split; [intros el; apply extractPrice_none|].
  split; [intros el; apply extractSellerFeedback_none|].
  intros el; apply extractShipping_none.
Qed.

(** The listing page without price element: the price is null, and the
    title, the shipping cost and the other fields are those of the page with
    the price. *)
Lemma extract_missing_field_witness :
  extractListingData
    (without (selectors F_price) (listing_page (Body "A camera.")))
  = Normal (clear_field F_price camera_snapshot) /\
  price (clear_field F_price camera_snapshot) = None /\
  shipping (clear_field F_price camera_snapshot) = shipping camera_snapshot.
Proof.
  split; [|split; reflexivity].
  apply (extract_missing_field (listing_page (Body "A camera.")) F_price
           camera_snapshot).
  reflexivity.
Defined.

(** * Further properties of the extractors *)

(** ** Matches and where they lie *)

Section Occurrences.

Implicit Types (s r a b w pre post lit : string) (c : ascii) (p : ascii -> bool).

Lemma span_spec p s :
  s = (span p s).1 +:+ (span p s).2 /\
  all_chars p (span p s).1 = true /\
  not_starting p (span p s).2 = true.
Proof.
  induction s as [|c s (IH1 & IH2 & IH3)]; [done|]. simpl.
  destruct (p c) eqn:E.
  - destruct (span p s) as [m t]. simpl in *.
    rewrite append_cons, <- IH1, E. done.
  - simpl. by rewrite E.
Qed.

Lemma re_plus_spec p s a r :
  re_plus p s = Some (a, r) ->
  s = a +:+ r /\ a <> "" /\ all_chars p a = true /\ not_starting p r = true.
Proof.
  unfold re_plus. destruct (span_spec p s) as (H1 & H2 & H3).
  destruct (span p s) as [m t]. simpl in *.
  destruct m as [|c m]; [done|]. intros H. inversion H; subst. done.
Qed.

Lemma skip_lit_spec lit s r : skip_lit lit s = Some r <-> s = lit +:+ r.
Proof.
  revert s. induction lit as [|c lit IH]; intros s.
  - simpl. rewrite append_nil_l. split; [by intros [= ->]|by intros ->].
  - rewrite append_cons. destruct s as [|c' s]; simpl; [done|].
    destruct (Ascii.eqb_spec c c') as [->|Hne].
    + rewrite IH. split; [by intros ->|by intros [= ->]].
    + split; [done|]. intros [= ? _]. done.
Qed.

Lemma skip_lit_app lit r : skip_lit lit (lit +:+ r) = Some r.
Proof. by apply skip_lit_spec. Qed.

(** The match that [re_match] returns is a match of the pattern at some
    position of the text. *)
Lemma re_match_at (m : Matcher) s a :
  re_match m s = Some a ->
  exists pre s' r, s = pre +:+ s' /\ m s' = Some (a, r).
Proof.
  induction s as [|c s IH]; cbn [re_match].
  - destruct (m "") as [[a' r]|] eqn:E; [|done]. intros [= <-].
    by exists "", "", r.
  - destruct (m (String c s)) as [[a' r]|] eqn:E.
    + intros [= <-]. by exists "", (String c s), r.
    + intros (pre & s' & r & -> & H)%IH.
      by exists (String c pre), s', r.
Qed.

(** A text in which the pattern matches at some position has a match. *)
Lemma re_match_found (m : Matcher) pre s a r :
  m s = Some (a, r) -> is_Some (re_match m (pre +:+ s)).
Proof.
  intros H. induction pre as [|c pre IH].
  - rewrite append_nil_l, (re_match_here m s a r H). eauto.
  - rewrite append_cons. cbn [re_match].
    by destruct (m (String c (pre +:+ s))) as [[a' r']|].
Qed.

Lemma includes_app_r a s w : includes s w = true -> includes (a +:+ s) w = true.
Proof.
  intros H. induction a as [|c a IH]; [done|].
  rewrite append_cons. by apply includes_cons.
Qed.

End Occurrences.

(** ** A literal of the form [/xyz/] and the text before it *)

Section Literal.

Variables (x y z : ascii) (g : Matcher).
Hypothesis x_not_slash : Ascii.eqb x "/" = false.
Hypothesis y_not_slash : Ascii.eqb y "/" = false.
Hypothesis z_not_slash : Ascii.eqb z "/" = false.

(** No match of [/xyz/(group)] begins in a text that does not contain
    [/xyz], when [/xyz/] follows that text. *)
Lemma re_match_after_prefix (pre s : string) :
  let lit := String "/" (String x (String y (String z "/"))) in
  includes pre (String "/" (String x (String y (String z "")))) = false ->
  re_match (re_group_after lit g) (pre +:+ lit +:+ s)
  = re_match (re_group_after lit g) (lit +:+ s).
Proof.
  intros lit.
  induction pre as [|c pre IH]; [done|].
  cbn [includes]. intros [Hs Hi]%orb_false_iff.
  rewrite append_cons. cbn [re_match]. rewrite (IH Hi).
  assert (Hnone : skip_lit lit (String c (pre +:+ lit +:+ s)) = None).
  { clear IH Hi. unfold lit in *.
    destruct pre as [|c1 [|c2 [|c3 pre]]];
      rewrite ?append_cons, ?append_nil_l; cbn [skip_lit startsWith] in *;
      rewrite ?x_not_slash, ?y_not_slash, ?z_not_slash;
      repeat match goal with
             | |- context [Ascii.eqb ?u ?v] => destruct (Ascii.eqb u v)
             end; simpl in *; try done; by destruct pre. }
  unfold re_group_after at 1. by rewrite Hnone.
Qed.

End Literal.

(** ** Item and seller identifiers *)

Section Identifiers.

Import EbayListingExtractor.

Lemma re_item_spec (s id r : string) :
  re_item s = Some (id, r) ->
  s = "/itm/" +:+ id +:+ r /\ id <> "" /\
  all_chars is_digit id = true /\ not_starting is_digit r = true.
Proof.
  unfold re_item, re_group_after.
  destruct (skip_lit "/itm/" s) as [r0|] eqn:E; [|done].
  apply skip_lit_spec in E as ->.
  intros (-> & ? & ? & ?)%re_plus_spec. done.
Qed.

Lemma re_usr_spec (s id r : string) :
  re_usr s = Some (id, r) ->
  s = "/usr/" +:+ id +:+ r /\ id <> "" /\
  all_chars not_question id = true /\ not_starting not_question r = true.
Proof.
  unfold re_usr, re_group_after.
  destruct (skip_lit "/usr/" s) as [r0|] eqn:E; [|done].
  apply skip_lit_spec in E as ->.
  intros (-> & ? & ? & ?)%re_plus_spec. done.
Qed.

Lemma item_match_spec (u id : string) :
  re_match re_item u = Some id ->
  id <> "" /\ all_chars is_digit id = true /\
  exists pre post,
    u = pre +:+ "/itm/" +:+ id +:+ post /\ not_starting is_digit post = true.
Proof.
  intros (pre & s' & r & Hs & (-> & ? & ? & ?)%re_item_spec)%re_match_at.
  split; [done|]. split; [done|]. by exists pre, r.
Qed.

(** The item id is a run of digits that stands after [/itm/] in the page
    address and is not followed by a further digit. *)
Theorem extractItemId_digits (d : Document) (id : string) :
  extractItemId d = Some id ->
  id <> "" /\ all_chars is_digit id = true /\
  exists pre post,
    location_href d = pre +:+ "/itm/" +:+ id +:+ post /\
    not_starting is_digit post = true.
Proof. apply item_match_spec. Qed.

Lemma extractItemId_digits_witness :
  "123456789012" <> "" /\ all_chars is_digit "123456789012" = true /\
  exists pre post,
    location_href (listing_page NoBody)
    = pre +:+ "/itm/" +:+ "123456789012" +:+ post /\
    not_starting is_digit post = true.
Proof.
  exact (extractItemId_digits (listing_page NoBody) "123456789012" eq_refl).
Defined.

(** The item id is null exactly when no [/itm/] of the page address is
    followed by a digit. *)
Theorem extractItemId_null (d : Document) :
  extractItemId d = None <->
  ~ exists pre c post,
      location_href d = pre +:+ "/itm/" +:+ String c post /\ is_digit c = true.
Proof.
  split.
  - intros Hnone (pre & c & post & Hurl & Hc).
    unfold extractItemId in Hnone. rewrite Hurl in Hnone.
    destruct (re_item ("/itm/" +:+ String c post)) as [[a r]|] eqn:E.
    + destruct (re_match_found re_item pre _ a r E) as [id Hid]. congruence.
    + unfold re_item, re_group_after in E. rewrite skip_lit_app in E.
      apply re_plus_head in E. congruence.
  - intros Hno. destruct (extractItemId d) as [id|] eqn:E; [|done].
    destruct (item_match_spec _ id E) as (Hne & Hd & pre & post & Hurl & _).
    destruct id as [|c id]; [done|]. exfalso. apply Hno.
    exists pre, c, (id +:+ post). split; [by rewrite Hurl|].
    simpl in Hd. by apply andb_true_iff in Hd as [-> _].
Qed.

(** The id is the one of the first [/itm/]: when the address is a text
    without [/itm], then [/itm/], digits, and a rest that does not begin
    with a digit, the item id is those digits. *)
Theorem extractItemId_first (d : Document) (pre ds post : string) :
  location_href d = pre +:+ "/itm/" +:+ ds +:+ post ->
  includes pre "/itm" = false ->
  all_chars is_digit ds = true -> ds <> "" ->
  not_starting is_digit post = true ->
  extractItemId d = Some ds.
Proof.
  intros Hurl Hpre Hds Hne Hpost. unfold extractItemId. rewrite Hurl.
  unfold re_item.
  rewrite (re_match_after_prefix "i" "t" "m" (re_plus is_digit)) by done.
  eapply re_match_here. unfold re_group_after.
  rewrite skip_lit_app. by apply re_plus_run.
Qed.

Lemma extractItemId_first_witness :
  extractItemId (listing_page NoBody) = Some "123456789012".
Proof.
  apply (extractItemId_first (listing_page NoBody)
           "https://www.ebay.com" "123456789012" "?hash=item1");
    first [reflexivity | discriminate].
Defined.

(** The seller id is a non-empty text without question mark that stands
    after [/usr/] in the address of the seller link and runs to the first
    question mark or to the end of the address. *)
Theorem extractSellerId_segment (d : Document) (sellerLink : Element)
    (id : string) :
  querySelector d seller_link_selector = Some sellerLink ->
  extractSellerId d = Normal (Some id) ->
  id <> "" /\ all_chars not_question id = true /\
  exists pre post,
    href sellerLink = HrefString (pre +:+ "/usr/" +:+ id +:+ post) /\
    not_starting not_question post = true.
Proof.
  intros Hel. unfold extractSellerId. rewrite Hel.
  destruct (href sellerLink) as [u|]; [|done]. intros [= H]. revert H.
  intros (pre & s' & r & -> & (-> & ? & ? & ?)%re_usr_spec)%re_match_at.
  split; [done|]. split; [done|]. by exists pre, r.
Qed.

Lemma extractSellerId_segment_witness :
  "camerashop" <> "" /\ all_chars not_question "camerashop" = true /\
  exists pre post,
    HrefString "https://www.ebay.com/usr/camerashop?_trksid=p1"
    = HrefString (pre +:+ "/usr/" +:+ "camerashop" +:+ post) /\
    not_starting not_question post = true.
Proof.
  exact (extractSellerId_segment (listing_page NoBody)
           (link "camerashop" "https://www.ebay.com/usr/camerashop?_trksid=p1")
           "camerashop" eq_refl eq_refl).
Defined.

(** The seller id is that of the first [/usr/], with the query string cut
    off: when the address of the link is a text without [/usr], then
    [/usr/], a name without question mark, and nothing more or a query
    string, the seller id is the name. *)
Theorem extractSellerId_first (d : Document) (sellerLink : Element)
    (pre name post : string) :
  querySelector d seller_link_selector = Some sellerLink ->
  href sellerLink = HrefString (pre +:+ "/usr/" +:+ name +:+ post) ->
  includes pre "/usr" = false ->
  all_chars not_question name = true -> name <> "" ->
  not_starting not_question post = true ->
  extractSellerId d = Normal (Some name).
Proof.
  intros Hel Href Hpre Hname Hne Hpost. unfold extractSellerId.
  rewrite Hel, Href. unfold re_usr. f_equal.
  rewrite (re_match_after_prefix "u" "s" "r" (re_plus not_question)) by done.
  eapply re_match_here. unfold re_group_after.
  rewrite skip_lit_app. by apply re_plus_run.
Qed.

Lemma extractSellerId_first_witness :
  extractSellerId (listing_page NoBody) = Normal (Some "camerashop").
Proof.
  apply (extractSellerId_first (listing_page NoBody)
           (link "camerashop" "https://www.ebay.com/usr/camerashop?_trksid=p1")
           "https://www.ebay.com" "camerashop" "?_trksid=p1");
    first [reflexivity | discriminate].
Defined.

End Identifiers.

(** ** Text fields *)

Section TextFields.

Import EbayListingExtractor.

Implicit Types (s w : string) (c : ascii).

Lemma trimStart_start s : not_starting is_space (trimStart s) = true.
Proof.
  induction s as [|c s IH]; [done|]. simpl.
  destruct (is_space c) eqn:E; [done|]. simpl. by rewrite E.
Qed.

Lemma trimEnd_trimEnd s : trimEnd (trimEnd s) = trimEnd s.
Proof.
  induction s as [|c s IH]; [done|]. simpl.
  destruct (trimEnd s) as [|c' r] eqn:E.
  - destruct (is_space c) eqn:Hc; [done|]. simpl. by rewrite Hc.
  - cbn [trimEnd]. cbn [trimEnd] in IH. by rewrite IH.
Qed.

Lemma trim_trim s : trim (trim s) = trim s.
Proof.
  unfold trim.
  rewrite (trimStart_id (trimEnd (trimStart s)))
    by apply trimEnd_start, trimStart_start.
  apply trimEnd_trimEnd.
Qed.

(** The title, the seller name and the condition carry no whitespace at
    either end: trimming them again changes nothing. *)
Theorem text_fields_trimmed (d : Document) :
  trim (extractTitle d) = extractTitle d /\
  trim (extractSellerName d) = extractSellerName d /\
  trim (extractCondition d) = extractCondition d.
Proof.
  unfold extractTitle, extractSellerName, extractCondition.
  repeat split;
    match goal with
    | |- context [match ?o with _ => _ end] => destruct o
    end; first [apply trim_trim | reflexivity].
Qed.

(** *** Category *)

Lemma includes_join (sep x : string) (xs : list string) :
  x ∈ xs -> includes (join sep xs) x = true.
Proof.
  induction xs as [|y xs IH]; [by intros ?%elem_of_nil|].
  intros [<-|Hin]%elem_of_cons.
  - destruct xs as [|y' xs].
    + simpl. rewrite <- (append_nil_r x) at 1.
      apply (includes_app "" x "").
    + cbn [join]. apply (includes_app "" x).
  - destruct xs as [|y' xs]; [by apply elem_of_nil in Hin|].
    cbn [join]. rewrite <- append_assoc. by apply includes_app_r, IH.
Qed.

(** The trimmed text of every breadcrumb occurs in the category, and the
    category of a page with one breadcrumb is its trimmed text. *)
Theorem extractCategory_breadcrumbs (d : Document) (a : Element) :
  a ∈ querySelectorAll d ".breadcrumb a" ->
  includes (extractCategory d) (trim (textContent a)) = true /\
  (querySelectorAll d ".breadcrumb a" = [a] ->
   extractCategory d = trim (textContent a)).
Proof.
  intros Hin. unfold extractCategory.
  destruct (querySelectorAll d ".breadcrumb a") as [|b bs] eqn:E;
    [by apply elem_of_nil in Hin|].
  cbn [List.length Nat.eqb]. split.
  - apply includes_join.
    by apply (list_elem_of_fmap_2 (fun a => trim (textContent a))).
  - by intros [= -> ->].
Qed.

Lemma extractCategory_breadcrumbs_witness :
  includes (extractCategory (listing_page NoBody)) "Film Cameras" = true.
Proof.
  apply (extractCategory_breadcrumbs (listing_page NoBody)
           (element "Film Cameras")).
  apply list_elem_of_In. simpl. auto.
Defined.

End TextFields.

(** ** Description, completion and cache key *)

Section Snapshot.

Import EbayListingExtractor.

Lemma substring0_length (n : nat) (s : string) :
  String.length (substring0 n s) <= n.
Proof.
  revert s. induction n as [|n IH]; intros [|c s]; simpl; try lia.
  specialize (IH s). lia.
Qed.

Lemma substring0_prefix (n : nat) (s : string) :
  exists rest, s = substring0 n s +:+ rest /\
               (String.length s <= n -> rest = "").
Proof.
  revert s. induction n as [|n IH]; intros [|c s]; simpl.
  - by exists "".
  - exists (String c s). split; [done|]. lia.
  - by exists "".
  - destruct (IH s) as (rest & Hs & Hrest). exists rest.
    split; [by rewrite append_cons, <- Hs|]. intros ?. apply Hrest. lia.
Qed.

Local Opaque substring0.

(** A description that is returned has at most 1000 characters; it is the
    beginning of the body text of the description frame, and all of it when
    that text has at most 1000 characters. *)
Theorem extractDescription_bounded (d : Document) (text : string) :
  extractDescription d = Normal text ->
  String.length text <= 1000 /\
  forall descEl body,
    querySelector d ".x-item-description iframe" = Some descEl ->
    contentWindow descEl = Body body ->
    exists rest, body = text +:+ rest /\
                 (String.length body <= 1000 -> rest = "").
Proof.
  unfold extractDescription.
  destruct (querySelector d ".x-item-description iframe") as [el|].
  - destruct (contentWindow el) as [| |body] eqn:E; try done.
    intros H. assert (text = substring0 1000 body) as -> by congruence.
    split; [apply substring0_length|].
    intros descEl body' [= <-]. rewrite E. intros [= <-].
    apply substring0_prefix.
  - intros [= <-]. split; [simpl; lia|done].
Qed.

Lemma extractDescription_bounded_witness :
  String.length "A camera." <= 1000.
Proof.
  apply (extractDescription_bounded (listing_page (Body "A camera."))
           "A camera.").
  reflexivity.
Defined.

Lemma extractSellerId_Throw (d : Document) (e : Error) :
  extractSellerId d = Throw e <->
  exists sellerLink,
    querySelector d seller_link_selector = Some sellerLink /\
    href sellerLink = HrefObject /\ e = TypeError.
Proof.
  unfold extractSellerId.
  destruct (querySelector d seller_link_selector) as [el|].
  - destruct (href el) as [u|] eqn:E; split.
    + done.
    + intros (? & [= <-] & ? & _). congruence.
    + intros [= <-]. by exists el.
    + by intros (? & _ & _ & ->).
  - split; [done|]. by intros (? & ? & _).
Qed.

Lemma extractDescription_Throw (d : Document) (e : Error) :
  extractDescription d = Throw e <->
  exists descEl,
    querySelector d ".x-item-description iframe" = Some descEl /\
    ((contentWindow descEl = CrossOrigin /\ e = SecurityError) \/
     (contentWindow descEl = NoBody /\ e = TypeError)).
Proof.
  unfold extractDescription.
  destruct (querySelector d ".x-item-description iframe") as [el|].
  - destruct (contentWindow el) eqn:E; split.
    + intros [= <-]. exists el. auto.
    + by intros (? & [= <-] & [[_ ->]|[? _]]); [|congruence].
    + intros [= <-]. exists el. auto.
    + by intros (? & [= <-] & [[? _]|[_ ->]]); [congruence|].
    + done.
    + intros (? & [= <-] & [[? _]|[? _]]); congruence.
  - split; [done|]. by intros (? & ? & _).
Qed.

(** The extraction raises in exactly two cases: the seller link has an
    [href] that is not a string, and the exception is the TypeError of that
    read; or the seller id is read without exception and the page has a
    description frame whose body text cannot be read, and the exception is
    that of the frame.  No other extractor ends the extraction. *)
Theorem extractListingData_throws (d : Document) (e : Error) :
  extractListingData d = Throw e <->
  (exists sellerLink,
     querySelector d seller_link_selector = Some sellerLink /\
     href sellerLink = HrefObject /\ e = TypeError) \/
  ((forall sellerLink,
      querySelector d seller_link_selector = Some sellerLink ->
      href sellerLink <> HrefObject) /\
   exists descEl,
     querySelector d ".x-item-description iframe" = Some descEl /\
     ((contentWindow descEl = CrossOrigin /\ e = SecurityError) \/
      (contentWindow descEl = NoBody /\ e = TypeError))).
Proof.
  rewrite <- extractSellerId_Throw, <- extractDescription_Throw.
  unfold extractListingData.
  destruct (extractSellerId d) as [sid|e'] eqn:Hid; simpl.
  - assert (Hstr : forall sellerLink,
               querySelector d seller_link_selector = Some sellerLink ->
               href sellerLink <> HrefObject).
    { intros el Hel Hobj. unfold extractSellerId in Hid.
      by rewrite Hel, Hobj in Hid. }
    destruct (extractDescription d) as [text|e''] eqn:Hdesc; simpl.
    + split; [done|]. intros [H|[_ H]]; discriminate H.
    + split; [intros [= <-]; by right|].
      intros [H|[_ H]]; [discriminate H|by injection H as ->].
  - split; [intros [= <-]; by left|].
    intros [H|[Hstr _]]; [by injection H as ->|].
    apply extractSellerId_Throw in Hid as (el & Hel & Hobj & _).
    by destruct (Hstr el Hel).
Qed.

(** On [svg_link_page] the seller id cannot be read and the extraction
    raises, with no description frame on the page. *)
Lemma svg_link_page_raises :
  extractSellerId svg_link_page = Throw TypeError /\
  extractDescription svg_link_page = Normal "" /\
  extractListingData svg_link_page = Throw TypeError.
Proof. repeat split; reflexivity. Qed.

(** Two snapshots that the extraction returns have the same cache key only
    if they have the same item id: the key of an id is never [listing_null],
    the key of every page without id. *)
Theorem cacheKey_injective (d1 d2 : Document) (s1 s2 : ListingData) :
  extractListingData d1 = Normal s1 ->
  extractListingData d2 = Normal s2 ->
  TrustGuardAPI.cacheKey s1 = TrustGuardAPI.cacheKey s2 ->
  itemId s1 = itemId s2.
Proof.
  intros (sid1 & text1 & _ & _ & ->)%extractListingData_Normal.
  intros (sid2 & text2 & _ & _ & ->)%extractListingData_Normal.
  unfold TrustGuardAPI.cacheKey, snapshot_with. cbn [itemId].
  assert (Hnull : forall d, extractItemId d <> Some "null").
  { intros d E. by destruct (item_match_spec _ _ E) as (_ & ? & _). }
  destruct (extractItemId d1) as [i1|] eqn:E1,
           (extractItemId d2) as [i2|] eqn:E2;
    rewrite ?append_cons, ?append_nil_l; intros H; inversion H; subst;
    first [done | by destruct (Hnull d1) | by destruct (Hnull d2)].
Qed.

Lemma cacheKey_injective_witness :
  itemId camera_snapshot = itemId (clear_field F_price camera_snapshot).
Proof.
  apply (cacheKey_injective (listing_page (Body "A camera."))
           (without (selectors F_price) (listing_page (Body "A camera."))));
    reflexivity.
Defined.

End Snapshot.

(** ** Further outcomes of the numeric extractors *)

Section NumericOutcomes.

Import EbayListingExtractor.

Implicit Types (s text pre ip fp post ds w : string) (c : ascii).

Lemma digit_val_nonneg c : is_digit c = true -> (0 <= digit_val c)%Z.
Proof.
  unfold is_digit, digit_val.
  intros [H _]%andb_true_iff. apply Nat.leb_le in H. lia.
Qed.

Lemma digits_val_nonneg ds (acc : Z) :
  all_chars is_digit ds = true -> (0 <= acc)%Z -> (0 <= digits_val acc ds)%Z.
Proof.
  revert acc. induction ds as [|c ds IH]; intros acc; [done|]. simpl.
  intros [Hc Hds]%andb_true_iff Hacc. apply IH; [done|].
  pose proof (digit_val_nonneg c Hc). lia.
Qed.

Lemma decimal_nonneg ip fp :
  all_chars is_digit ip = true -> all_chars is_digit fp = true ->
  (0 <= decimal ip fp)%Q.
Proof.
  intros Hip Hfp. unfold decimal. rewrite Qred_correct.
  unfold Qle. simpl. rewrite Z.mul_1_r.
  apply digits_val_nonneg; [|done]. by rewrite all_chars_app, Hip, Hfp.
Qed.

Lemma parseFloat_nonneg s (q : Q) : parseFloat s = Num q -> (0 <= q)%Q.
Proof.
  unfold parseFloat.
  pose proof (span_fst_all is_digit (trimStart s)) as Hip.
  destruct (span is_digit (trimStart s)) as [ip r]. simpl in Hip.
  assert (Hfp : all_chars is_digit
                  match r with
                  | String "." r' => (span is_digit r').1
                  | _ => ""
                  end = true).
  { destruct r as [|c r]; [done|].
    destruct (Ascii.eqb_spec c ".") as [->|Hne]; [apply span_fst_all|].
    by destruct c as [[] [] [] [] [] [] [] []]. }
  revert Hfp.
  generalize (match r with
              | String "." r' => (span is_digit r').1
              | _ => ""
              end).
  intros fp Hfp. destruct ip, fp; try done; intros [= <-];
    by apply decimal_nonneg.
Qed.

Lemma parseInt_natural s (q : Q) :
  parseInt s = Num q -> (0 <= q)%Q /\ Qden q = 1%positive.
Proof.
  unfold parseInt.
  pose proof (span_fst_all is_digit (trimStart s)) as Hds.
  destruct (span is_digit (trimStart s)).1 as [|c ds] eqn:E; [done|].
  intros H.
  assert (q = inject_Z (digits_val 0 (String c ds))) as -> by congruence.
  split; [|done].
  pose proof (digits_val_nonneg (String c ds) 0 Hds (Z.le_refl 0)) as Hn.
  unfold Qle, inject_Z. cbn [Qnum Qden]. lia.
Qed.

(** A price, a shipping cost and a feedback count that are numbers are
    never negative, and the feedback count is a whole number: no sign and,
    for the count, no fraction is read from the text. *)
Theorem numeric_fields_nonnegative (d : Document) (q : Q) :
  (extractPrice d = Some (Num q) -> (0 <= q)%Q) /\
  (extractShipping d = Some (Num q) -> (0 <= q)%Q) /\
  (extractSellerFeedback d = Some (Num q) ->
     (0 <= q)%Q /\ Qden q = 1%positive).
Proof.
  unfold extractPrice, extractShipping, extractSellerFeedback.
  split; [|split].
  - destruct (or_else _ _) as [el|]; [|done].
    destruct (re_match re_price _) as [m|]; [|done].
    intros [= H]. by apply parseFloat_nonneg in H.
  - destruct (querySelector _ _) as [el|]; [|done].
    destruct (includes _ _); [by intros [= <-]|].
    destruct (re_match re_amount _) as [m|]; [|done].
    intros [= H]. by apply parseFloat_nonneg in H.
  - destruct (or_else _ _) as [el|]; [|done].
    destruct (re_match re_count _) as [m|]; [|done].
    intros [= H]. by apply parseInt_natural in H.
Qed.

Lemma numeric_fields_nonnegative_witness :
  (0 <= Qred (123456 # 100))%Q /\ (0 <= 1234)%Q /\ Qden 1234 = 1%positive.
Proof.
  split.
  - exact (proj1 (numeric_fields_nonnegative (listing_page NoBody)
                    (Qred (123456 # 100))) eq_refl).
  - exact (proj2 (proj2 (numeric_fields_nonnegative (listing_page NoBody) 1234))
             eq_refl).
Defined.

(** *** Runs that hold no digit *)

Lemma trimStart_point w : all_chars is_dot w = true -> trimStart w = w.
Proof.
  intros H. apply trimStart_id. destruct w as [|c w]; [done|]. simpl in *.
  apply andb_true_iff in H as [Hc _]. by rewrite (dot_not_space c Hc).
Qed.

Lemma span_digit_points w : all_chars is_dot w = true -> (span is_digit w).1 = "".
Proof.
  destruct w as [|c w]; [done|]. simpl.
  intros [Hc _]%andb_true_iff.
  destruct (is_digit c) eqn:E; [|done].
  by rewrite (digit_not_dot c E) in Hc.
Qed.

Lemma parseFloat_points w : all_chars is_dot w = true -> parseFloat w = NaN.
Proof.
  intros H. unfold parseFloat. rewrite (trimStart_point w H).
  pose proof (span_digit_points w H) as Hip.
  pose proof (span_spec is_digit w) as (Hw & _ & _).
  destruct (span is_digit w) as [ip r]. simpl in *. subst ip.
  rewrite append_nil_l in Hw. subst r.
  destruct w as [|c w]; [done|]. simpl in H.
  apply andb_true_iff in H as [Hc Hw]. apply Ascii.eqb_eq in Hc as ->.
  by rewrite (span_digit_points w Hw).
Qed.

Lemma remove_commas_all w : all_chars is_comma w = true -> remove_all is_comma w = "".
Proof.
  induction w as [|c w IH]; [done|]. simpl.
  intros [-> Hw]%andb_true_iff. by apply IH.
Qed.

Lemma amount_text_run pre w post :
  no_char is_digit_or_dot pre = true ->
  all_chars is_digit_or_dot w = true -> w <> "" ->
  not_starting is_digit_or_dot post = true ->
  re_match re_amount (trim (pre +:+ w +:+ post)) = Some w.
Proof.
  intros Hpre Hw Hne Hpost.
  assert (Hns : no_char is_space w = true).
  { revert Hw. apply all_chars_impl. intros c H.
    by rewrite (digit_or_dot_not_space c H). }
  rewrite trim_middle by done.
  rewrite (re_match_skip is_digit_or_dot re_amount (re_plus_head _))
    by (by apply trimStart_class).
  eapply re_match_here, re_plus_run; try done.
  by apply trimEnd_start.
Qed.

Lemma price_text_run pre ip post :
  no_char is_digit_or_comma pre = true ->
  all_chars is_digit_or_comma ip = true -> ip <> "" ->
  not_starting is_digit_or_comma post = true ->
  not_starting is_dot post = true ->
  re_match re_price (trim (pre +:+ ip +:+ post)) = Some ip.
Proof.
  intros Hpre Hip Hne Hpost Hdot.
  assert (Hns : no_char is_space ip = true).
  { revert Hip. apply all_chars_impl. intros c H.
    by rewrite (digit_or_comma_not_space c H). }
  rewrite trim_middle by done.
  rewrite (re_match_skip is_digit_or_comma re_price re_price_head)
    by (by apply trimStart_class).
  apply trimEnd_start in Hpost, Hdot.
  eapply re_match_here. unfold re_price, re_seq.
  rewrite (re_plus_run _ ip (trimEnd post)) by done.
  assert (Hopt : re_opt "." (trimEnd post) = Some ("", trimEnd post)).
  { destruct (trimEnd post) as [|c r]; [done|]. simpl in *.
    unfold is_dot in Hdot. apply negb_true_iff in Hdot. by rewrite Hdot. }
  rewrite Hopt. unfold re_star.
  assert (Hsp : span is_digit (trimEnd post) = ("", trimEnd post)).
  { apply (span_run is_digit "" (trimEnd post)); [done|].
    revert Hpost. apply not_starting_impl. intros c H.
    unfold is_digit_or_comma. by rewrite H. }
  rewrite Hsp. by rewrite !append_nil_r.
Qed.

Lemma parseFloat_digits ds :
  all_chars is_digit ds = true -> ds <> "" ->
  parseFloat ds = Num (decimal ds "").
Proof.
  intros Hds Hne. unfold parseFloat.
  pose proof (span_run is_digit ds "" Hds eq_refl) as Hsp.
  rewrite append_nil_r in Hsp.
  rewrite trimStart_id, Hsp.
  - by destruct ds.
  - rewrite <- (append_nil_r ds). by apply digits_start.
Qed.

(** A shipping text without [free] whose first run of digits and points
    holds points only gives [NaN]: the run is matched as if it were an
    amount, and no number can be read from it. *)
Theorem extractShipping_points (d : Document) (shippingEl : Element)
    (pre w post : string) :
  querySelector d ".ux-labels-values--shipping .ux-textspans--BOLD"
    = Some shippingEl ->
  textContent shippingEl = pre +:+ w +:+ post ->
  includes (toLowerCase (textContent shippingEl)) "free" = false ->
  no_char is_digit_or_dot pre = true ->
  all_chars is_dot w = true -> w <> "" ->
  not_starting is_digit_or_dot post = true ->
  extractShipping d = Some NaN.
Proof.
  intros Hel Htext Hfree Hpre Hw Hne Hpost. unfold extractShipping.
  rewrite Hel, (not_includes_trim _ _ Hfree), Htext.
  rewrite amount_text_run; [by rewrite parseFloat_points|done| |done|done].
  revert Hw. apply all_chars_impl. intros c H.
  unfold is_digit_or_dot. rewrite H. apply orb_true_r.
Qed.

Lemma extractShipping_points_witness :
  extractShipping (shipping_page "Ships in a week... see details") = Some NaN.
Proof.
  apply (extractShipping_points _ (element "Ships in a week... see details")
           "Ships in a week" "..." " see details");
    first [reflexivity | discriminate].
Defined.

(** A feedback text whose first run of digits and commas holds commas only
    gives [NaN]; so does a price text whose first such run holds commas only
    and is not directly followed by a point. *)
Theorem comma_run_nan (d : Document) (priceEl feedbackEl : Element)
    (pre w post : string) :
  no_char is_digit_or_comma pre = true ->
  all_chars is_comma w = true -> w <> "" ->
  not_starting is_digit_or_comma post = true ->
  (or_else (querySelector d ".x-price-primary span.ux-textspans")
           (querySelector d "#prcIsum") = Some priceEl ->
   textContent priceEl = pre +:+ w +:+ post ->
   not_starting is_dot post = true ->
     extractPrice d = Some NaN) /\
  (or_else (querySelector d ".x-sellercard-atf__data--score")
           (querySelector d "#si-fb") = Some feedbackEl ->
   textContent feedbackEl = pre +:+ w +:+ post ->
     extractSellerFeedback d = Some NaN).
Proof.
  intros Hpre Hw Hne Hpost.
  assert (Hall : all_chars is_digit_or_comma w = true).
  { revert Hw. apply all_chars_impl. intros c H.
    unfold is_digit_or_comma. rewrite H. apply orb_true_r. }
  split.
  - intros Hel Htext Hdot. unfold extractPrice.
    rewrite Hel, Htext, price_text_run by done.
    by rewrite remove_commas_all.
  - intros Hel Htext. unfold extractSellerFeedback.
    rewrite Hel, Htext, count_text_run by done.
    by rewrite remove_commas_all.
Qed.

Lemma comma_run_nan_witness :
  extractPrice (price_page "Price, see description") = Some NaN.
Proof.
  refine (proj1 (comma_run_nan (price_page "Price, see description")
                   (element "Price, see description") (element "")
                   "Price" "," " see description" _ _ _ _) _ _ _);
    first [reflexivity | discriminate].
Defined.

(** A price written without fraction: the first run of digits and
    thousands separators, followed by neither digit, comma nor point, is
    read as a whole number with the separators dropped. *)
Theorem extractPrice_whole (d : Document) (priceEl : Element)
    (pre ip post : string) :
  or_else (querySelector d ".x-price-primary span.ux-textspans")
          (querySelector d "#prcIsum") = Some priceEl ->
  textContent priceEl = pre +:+ ip +:+ post ->
  no_char is_digit_or_comma pre = true ->
  all_chars is_digit_or_comma ip = true ->
  no_char is_digit ip = false ->
  not_starting is_digit_or_comma post = true ->
  not_starting is_dot post = true ->
  extractPrice d = Some (Num (decimal (remove_all is_comma ip) "")).
Proof.
  intros Hel Htext Hpre Hip Hdig Hpost Hdot. unfold extractPrice.
  assert (Hne : ip <> "") by (intros ->; discriminate).
  rewrite Hel, Htext, price_text_run by done.
  rewrite parseFloat_digits; [done| |by apply remove_commas_nonempty].
  by apply remove_commas_digits.
Qed.

Lemma extractPrice_whole_witness :
  extractPrice (price_page "US $1,250 or Best Offer") = Some (Num 1250).
Proof.
  apply (extractPrice_whole _ (element "US $1,250 or Best Offer")
           "US $" "1,250" " or Best Offer");
    reflexivity.
Defined.

(** A shipping text without [free] is read up to the first character that
    is neither digit nor point: a cost written with a thousands separator
    is cut at the separator. *)
Theorem extractShipping_whole (d : Document) (shippingEl : Element)
    (pre ip post : string) :
  querySelector d ".ux-labels-values--shipping .ux-textspans--BOLD"
    = Some shippingEl ->
  textContent shippingEl = pre +:+ ip +:+ post ->
  includes (toLowerCase (textContent shippingEl)) "free" = false ->
  no_char is_digit_or_dot pre = true ->
  all_chars is_digit ip = true -> ip <> "" ->
  not_starting is_digit_or_dot post = true ->
  extractShipping d = Some (Num (decimal ip "")).
Proof.
  intros Hel Htext Hfree Hpre Hip Hne Hpost. unfold extractShipping.
  rewrite Hel, (not_includes_trim _ _ Hfree), Htext.
  rewrite amount_text_run; [by rewrite parseFloat_digits|done| |done|done].
  revert Hip. apply all_chars_impl. intros c H.
  unfold is_digit_or_dot. by rewrite H.
Qed.

Lemma extractShipping_whole_witness :
  extractShipping (shipping_page "$1,234.56") = Some (Num 1).
Proof.
  apply (extractShipping_whole _ (element "$1,234.56") "$" "1" ",234.56");
    first [reflexivity | discriminate].
Defined.

End NumericOutcomes.

(** ** Images and fallback selectors *)

Section Selection.

Import EbayListingExtractor.

(** A carousel with at most five kept images loses none of them: the list
    holds the address of every kept image.  And in every document state,
    whatever the number of kept images, no entry of the list is the empty
    address. *)
Theorem extractImages_few (d : Document) :
  let imgs := querySelectorAll d ".ux-image-carousel-item img" in
  (length (List.filter kept imgs) <= 5 ->
   extractImages d = src <$> List.filter kept imgs /\
   (forall img, img ∈ imgs -> kept img = true -> src img ∈ extractImages d)) /\
  Forall (fun u => u <> "") (extractImages d).
Proof.
  intros imgs. split.
  - intros Hlen.
    assert (Heq : extractImages d = src <$> List.filter kept imgs).
    { rewrite extractImages_eq. fold imgs.
      apply take_ge. by rewrite length_fmap. }
    split; [done|].
    intros img Hin Hk. rewrite Heq. apply list_elem_of_fmap_2.
    apply list_elem_of_In, filter_In. split; [by apply list_elem_of_In|done].
  - rewrite extractImages_eq. fold imgs.
    apply Forall_take, Forall_fmap, Forall_forall.
    intros img [_ Hk]%list_elem_of_In%filter_In. simpl.
    unfold kept in Hk. apply andb_true_iff in Hk as [Hk _].
    apply negb_true_iff in Hk. intros E. rewrite E in Hk. done.
Qed.

Lemma extractImages_few_witness :
  "https://i.ebayimg.com/b.jpg" ∈ extractImages (listing_page NoBody).
Proof.
  refine (proj2 (proj1 (extractImages_few (listing_page NoBody)) _)
            (image "https://i.ebayimg.com/b.jpg") _ eq_refl).
  - simpl. lia.
  - apply list_elem_of_In. simpl. auto.
Defined.

(** The second selector of an extractor is read only when the first finds
    nothing: where the first selector finds an element, the field does not
    depend on what the second one finds. *)
Theorem first_selector_wins (d : Document) (r : string -> list Element) :
  (is_Some (querySelector d "h1.x-item-title__mainTitle") ->
   extractTitle (replace_sources [".it-ttl"] r d) = extractTitle d) /\
  (is_Some (querySelector d ".x-price-primary span.ux-textspans") ->
   extractPrice (replace_sources ["#prcIsum"] r d) = extractPrice d) /\
  (is_Some (querySelector d ".x-sellercard-atf__info__about-seller a") ->
   extractSellerName (replace_sources ["#mbgLink"] r d) = extractSellerName d) /\
  (is_Some (querySelector d ".x-sellercard-atf__data--score") ->
   extractSellerFeedback (replace_sources ["#si-fb"] r d)
   = extractSellerFeedback d) /\
  (is_Some (querySelector d ".x-item-condition-value__value") ->
   extractCondition (replace_sources ["#vi-itm-cond"] r d) = extractCondition d).
Proof.
  unfold extractTitle, extractPrice, extractSellerName, extractSellerFeedback,
    extractCondition, querySelector, replace_sources.
  cbn [querySelectorAll]. eval_selectors.
  repeat split; intros [el Hel]; by rewrite Hel.
Qed.

Lemma first_selector_wins_witness :
  extractPrice
    (replace_sources ["#prcIsum"] (fun _ => [element "$1.00"])
       (listing_page NoBody))
  = extractPrice (listing_page NoBody).
Proof.
  refine (proj1 (proj2 (first_selector_wins (listing_page NoBody)
                          (fun _ => [element "$1.00"]))) _).
  eexists. reflexivity.
Defined.

End Selection.
